(** * PubSubMFE: a shallow embedding of src/PubSubMFE.js

    The development follows the source file: JavaScript values, the heap
    objects the two classes share with their callers (arrays, subscription
    closures, Map objects), the class [DataObservable] and the class
    [PubSubMFE], then the properties of their operations.

    Conventions of the embedding.
    - A method is a function in a small state-and-exception monad: it takes
      the state, returns an [outcome] and the state reached, also when it
      throws (the writes made before a throw persist, as in JavaScript).
    - A subscriber callback is opaque caller code.  It is modelled by the
      source text it stringifies to and by the set of values on which it
      throws; every invocation is recorded in the trace [delivered].  The
      callbacks do not call back into the stream.
    - Numbers are the integral ones ([Z]); there is no NaN and no Date. *)

From stdpp Require Import gmap strings list fin_maps pretty.
From Stdlib Require Import ZArith Lia.

Set Warnings "-register-all".
Local Open Scope string_scope.
Local Open Scope list_scope.

(** ** JavaScript values *)

(** A plain object carries its identity [ref] (what [===] compares) and its
    own enumerable properties in insertion order. *)
Inductive value : Type :=
  | VUndefined
  | VNull
  | VBool (b : bool)
  | VNum (n : Z)
  | VStr (s : string)
  | VObj (ref : nat) (props : list (string * value)).

(** [!v] is [negb (truthy v)]. *)
Definition truthy (v : value) : bool :=
  match v with
  | VUndefined | VNull => false
  | VBool b => b
  | VNum n => negb (Z.eqb n 0)
  | VStr s => negb (String.eqb s "")
  | VObj _ _ => true
  end.

(** [v1 === v2]: primitives by value, objects by identity. *)
Definition strict_eq (v1 v2 : value) : bool :=
  match v1, v2 with
  | VUndefined, VUndefined => true
  | VNull, VNull => true
  | VBool a, VBool b => Bool.eqb a b
  | VNum a, VNum b => Z.eqb a b
  | VStr a, VStr b => String.eqb a b
  | VObj r1 _, VObj r2 _ => Nat.eqb r1 r2
  | _, _ => false
  end.

(** [typeof v === 'object'] *)
Definition typeof_object (v : value) : bool :=
  match v with
  | VNull | VObj _ _ => true
  | _ => false
  end.

(** Neither [null] nor an object. *)
Definition primitive (v : value) : bool := negb (typeof_object v).

Fixpoint string_chars (s : string) : list value :=
  match s with
  | EmptyString => []
  | String c s' => VStr (String c EmptyString) :: string_chars s'
  end.

(** The own enumerable properties [Object.keys] walks: those of a plain
    object, the indexed characters of a string, none for the other
    primitives. *)
Definition own_props (v : value) : list (string * value) :=
  match v with
  | VObj _ props => props
  | VStr s => imap (fun i c => (pretty i, c)) (string_chars s)
  | _ => []
  end.

Definition Object_keys (v : value) : list string := (own_props v).*1.

Fixpoint assoc (k : string) (props : list (string * value)) : option value :=
  match props with
  | [] => None
  | (k', v) :: props' => if String.eqb k k' then Some v else assoc k props'
  end.

(** [v[k]] for an own property, [undefined] when there is none. *)
Definition get_prop (v : value) (k : string) : value :=
  default VUndefined (assoc k (own_props v)).

(** ** Outcomes and the state-and-exception monad *)

Inductive error : Type :=
  | ChannelRequired     (* Error("Channel is required") *)
  | NewStateRequired    (* Error("New state is required") *)
  | CallbackRequired    (* Error("Callback is required") *)
  | ConfigConflict      (* Error("channel default already exists, ...") *)
  | CallbackError       (* whatever a subscriber callback threw *)
  | TypeError.          (* a method called on [undefined] *)

(** The three argument checks of the registry. *)
Definition invalid_argument (e : error) : bool :=
  match e with
  | ChannelRequired | NewStateRequired | CallbackRequired => true
  | _ => false
  end.

Inductive outcome (A : Type) : Type :=
  | Ok (a : A)
  | Throw (e : error).
Arguments Ok {A} a.
Arguments Throw {A} e.

Definition M (S A : Type) : Type := S -> outcome A * S.

Definition ret {S A} (a : A) : M S A := fun s => (Ok a, s).
Definition throw {S A} (e : error) : M S A := fun s => (Throw e, s).
Definition bind {S A B} (m : M S A) (k : A -> M S B) : M S B :=
  fun s => match m s with
           | (Ok a, s') => k a s'
           | (Throw e, s') => (Throw e, s')
           end.
Definition gets {S A} (f : S -> A) : M S A := fun s => (Ok (f s), s).
Definition get {S} : M S S := fun s => (Ok s, s).
Definition modify {S} (f : S -> S) : M S unit := fun s => (Ok tt, f s).

Notation "'do' x <- m ; k" := (bind m (fun x => k))
  (at level 10, x name, m at level 100, k at level 200).
Notation "m ;; k" := (bind m (fun _ => k))
  (at level 100, k at level 200, right associativity).

(** [m] leaves the component [proj] of the state alone, also when it throws. *)
Definition stable {S X A} (proj : S -> X) (m : M S A) : Prop :=
  forall s, proj (m s).2 = proj s.

(** [Array.prototype.forEach]: left to right, abandoned at the first throw. *)
Fixpoint forEach {S A} (f : A -> M S unit) (l : list A) : M S unit :=
  match l with
  | [] => ret tt
  | x :: l' => f x ;; forEach f l'
  end.

(** ** Heap objects *)

(** A subscriber callback: the text [String(callback)] yields (the key the
    stream uses in [observerState]) and the values it throws on. *)
Record Callback : Type := {
  cb_text : string;
  cb_throws : value -> bool;
}.

(** The environment of the closures one [subscribe] call creates:
    [filteredObserver], [replay] and the three handle methods all close over
    [callback], [filter], [replayPolicy] and the variable [paused]. *)
Record Subscription : Type := {
  callback : Callback;
  sub_filter : option (value -> value);   (* None: a falsy [filter] *)
  sub_replayPolicy : value;               (* VUndefined: not supplied *)
  paused : bool;
}.

Record Heap : Type := {
  arrays : gmap nat (list value);   (* array objects, by location *)
  next_loc : nat;                   (* the next array location *)
  closures : list Subscription;     (* subscription environments, by id *)
  delivered : list (nat * value);   (* trace: callback of subscription id
                                       was called with the value *)
}.

Definition array_read (a : nat) (h : Heap) : list value := arrays h !!! a.

Definition array_write (a : nat) (l : list value) (h : Heap) : Heap :=
  {| arrays := <[a := l]> (arrays h); next_loc := next_loc h;
     closures := closures h; delivered := delivered h |}.

(** [[]]: a new array object. *)
Definition array_new (h : Heap) : nat * Heap :=
  (next_loc h,
   {| arrays := <[next_loc h := []]> (arrays h); next_loc := S (next_loc h);
      closures := closures h; delivered := delivered h |}).

(** Any in-place mutation of the array at [a] (push, pop, splice, an
    assignment to an index or to [length], ...). *)
Definition array_mutate (a : nat) (f : list value -> list value) (h : Heap) : Heap :=
  array_write a (f (array_read a h)) h.

Definition set_closures (cs : list Subscription) (h : Heap) : Heap :=
  {| arrays := arrays h; next_loc := next_loc h;
     closures := cs; delivered := delivered h |}.

Definition log_delivery (id : nat) (v : value) (h : Heap) : Heap :=
  {| arrays := arrays h; next_loc := next_loc h;
     closures := closures h; delivered := delivered h ++ [(id, v)] |}.

Definition set_paused (b : bool) (c : Subscription) : Subscription :=
  {| callback := callback c; sub_filter := sub_filter c;
     sub_replayPolicy := sub_replayPolicy c; paused := b |}.

(** A heap with nothing allocated. *)
Definition empty_heap : Heap :=
  {| arrays := ∅; next_loc := 0; closures := []; delivered := [] |}.

(** ** class DataObservable *)

Module DataObservable.

Record t : Type := {
  bufferSize : Z;
  buffer : nat;                       (* location of the array this.buffer *)
  observers : list nat;               (* the filteredObserver closures, by id *)
  observerState : gmap string value;  (* a plain object: keys are strings *)
  replayPolicy : value;
}.

(** The state a method runs in: the receiver and the heap. *)
Record St : Type := { this : t; heap : Heap }.

Definition with_heap (f : Heap -> Heap) (s : St) : St :=
  {| this := this s; heap := f (heap s) |}.

Definition set_buffer (a : nat) (d : t) : t :=
  {| bufferSize := bufferSize d; buffer := a; observers := observers d;
     observerState := observerState d; replayPolicy := replayPolicy d |}.

Definition set_observers (os : list nat) (d : t) : t :=
  {| bufferSize := bufferSize d; buffer := buffer d; observers := os;
     observerState := observerState d; replayPolicy := replayPolicy d |}.

Definition set_observerState (m : gmap string value) (d : t) : t :=
  {| bufferSize := bufferSize d; buffer := buffer d; observers := observers d;
     observerState := m; replayPolicy := replayPolicy d |}.

Definition set_replayPolicy (p : value) (d : t) : t :=
  {| bufferSize := bufferSize d; buffer := buffer d; observers := observers d;
     observerState := observerState d; replayPolicy := p |}.

Definition with_this (f : t -> t) (s : St) : St :=
  {| this := f (this s); heap := heap s |}.

(** The contents of [this.buffer]. *)
Definition contents (s : St) : list value := array_read (buffer (this s)) (heap s).

(** [const { bufferSize = 1, replayPolicy = 'last' } = config]: a default
    applies when the property is [undefined].  The JSDoc types
    [config.bufferSize] as a number; a value of another type is outside
    that type and is read as the default here. *)
Definition config_bufferSize (config : value) : Z :=
  match get_prop config "bufferSize" with
  | VNum n => n
  | _ => 1%Z
  end.

Definition config_replayPolicy (config : value) : value :=
  match get_prop config "replayPolicy" with
  | VUndefined => VStr "last"
  | v => v
  end.

Definition constructor (config : value) (h : Heap) : St :=
  let '(a, h') := array_new h in
  {| this := {| bufferSize := config_bufferSize config;
                buffer := a;
                observers := [];
                observerState := ∅;
                replayPolicy := config_replayPolicy config |};
     heap := h' |}.

(** [this.observerState[key] = value] *)
Definition observerState_set (key : string) (v : value) : M St unit :=
  modify (with_this (fun d => set_observerState (<[key := v]> (observerState d)) d)).

(** [callback(value)] *)
Definition call (id : nat) (cb : Callback) (v : value) : M St unit :=
  modify (with_heap (log_delivery id v)) ;;
  if cb_throws cb v then throw CallbackError else ret tt.

(** What every [filteredObserver] arrow function stringifies to. *)
Definition filteredObserver_text : string :=
  "value => { if (!paused && (!filter || filter(value))) { this.observerState[callback] = value; callback(value); } }".

Definition passes (c : Subscription) (v : value) : bool :=
  match sub_filter c with
  | None => true
  | Some f => truthy (f v)
  end.

(** The closure [filteredObserver] of subscription [id].  Ids come from
    [subscribe] only, so the lookup succeeds. *)
Definition filteredObserver (id : nat) (v : value) : M St unit :=
  do oc <- gets (fun s => closures (heap s) !! id);
  match oc with
  | None => ret tt
  | Some c =>
      if negb (paused c) && passes c v then
        observerState_set (cb_text (callback c)) v ;;
        call id (callback c) v
      else ret tt
  end.

(** [setState(value)] *)
Definition setState (v : value) : M St unit :=
  modify (fun s => with_heap (array_mutate (buffer (this s)) (fun l => l ++ [v])) s) ;;
  (do s <- get;
   if Z.ltb (bufferSize (this s)) (Z.of_nat (length (contents s))) then
     modify (with_heap (array_mutate (buffer (this s)) tail))
   else ret tt) ;;
  do os <- gets (fun s => observers (this s));
  forEach (fun observer =>
             observerState_set filteredObserver_text v ;;
             filteredObserver observer v) os.

(** [array.slice(-1)] *)
Definition slice_last (l : list value) : list value := drop (length l - 1) l.

(** The closure [replay] of subscription [id]. *)
Definition replay (id : nat) : M St unit :=
  do oc <- gets (fun s => closures (heap s) !! id);
  match oc with
  | None => ret tt
  | Some c =>
      let replayPolicy := sub_replayPolicy c in
      let each := fun v =>
        observerState_set (cb_text (callback c)) v ;;
        filteredObserver id v in
      do s <- get;
      if strict_eq replayPolicy (VStr "last")
         || (strict_eq replayPolicy VUndefined
             && strict_eq (DataObservable.replayPolicy (this s)) (VStr "last"))
      then forEach each (slice_last (contents s))
      else if strict_eq replayPolicy (VStr "all")
              || (strict_eq replayPolicy VUndefined
                  && strict_eq (DataObservable.replayPolicy (this s)) (VStr "all"))
      then forEach each (contents s)
      else ret tt
  end.

(** [subscribe(callback, { filter, replayPolicy } = {})].  The handle it
    returns is the id of the environment its three methods close over. *)
Definition subscribe (cb : Callback) (filter : option (value -> value))
    (replayPolicy : value) : M St nat :=
  do id <- gets (fun s => length (closures (heap s)));
  modify (with_heap (fun h =>
    set_closures (closures h ++
      [{| callback := cb; sub_filter := filter;
          sub_replayPolicy := replayPolicy; paused := false |}]) h)) ;;
  modify (with_this (fun d => set_observers (observers d ++ [id]) d)) ;;
  replay id ;;
  ret id.

(** [handle.unsubscribe()] *)
Definition unsubscribe (id : nat) : M St unit :=
  do oc <- gets (fun s => closures (heap s) !! id);
  match oc with
  | None => ret tt
  | Some c =>
      modify (with_this (fun d =>
        set_observers (List.filter (fun o => negb (Nat.eqb o id)) (observers d)) d)) ;;
      modify (with_this (fun d =>
        set_observerState (delete (cb_text (callback c)) (observerState d)) d))
  end.

Definition write_paused (id : nat) (b : bool) : M St unit :=
  modify (with_heap (fun h =>
    set_closures (alter (set_paused b) id (closures h)) h)).

(** [handle.pause()] *)
Definition pause (id : nat) : M St unit := write_paused id true.

(** [handle.resume()] *)
Definition resume (id : nat) : M St unit :=
  write_paused id false ;;
  replay id.

(** [getBuffer()]: the array [this.buffer] itself. *)
Definition getBuffer : M St nat := gets (fun s => buffer (this s)).

(** [clearBuffer()]: [this.buffer] becomes a new array. *)
Definition clearBuffer : M St unit :=
  modify (fun s =>
    let '(a, h') := array_new (heap s) in
    {| this := set_buffer a (this s); heap := h' |}).

Definition getObserverCount : M St nat :=
  gets (fun s => length (observers (this s))).

Definition unsubscribeAll : M St unit :=
  modify (with_this (set_observers [])).

Definition getReplayPolicy : M St value :=
  gets (fun s => replayPolicy (this s)).

(** The caller mutates in place an array it holds. *)
Definition caller_mutates (a : nat) (f : list value -> list value) : M St unit :=
  modify (with_heap (array_mutate a f)).

(** The part of the state that decides the buffer. *)
Definition buffer_view (s : St) : Z * nat * gmap nat (list value) :=
  (bufferSize (this s), buffer (this s), arrays (heap s)).

(** The stream's default policy. *)
Definition policy_view (s : St) : value := replayPolicy (this s).

(** The sequence a caller reads out of the array [getBuffer()] returned. *)
Definition getBuffer_read (s : St) : list value :=
  match getBuffer s with
  | (Ok a, s') => array_read a (heap s')
  | (Throw _, _) => []
  end.

(** The state [subscribe] runs [replay] in: the closures are allocated
    and [filteredObserver] is pushed. *)
Definition registered (cb : Callback) (filter : option (value -> value))
    (rp : value) (s : St) : St :=
  {| this := set_observers (observers (this s) ++ [length (closures (heap s))]) (this s);
     heap := set_closures
               (closures (heap s) ++
                [{| callback := cb; sub_filter := filter;
                    sub_replayPolicy := rp; paused := false |}]) (heap s) |}.

(** The state [resume] runs [replay] in. *)
Definition unpaused (id : nat) (s : St) : St :=
  with_heap (fun h => set_closures (alter (set_paused false) id (closures h)) h) s.

(** An action that returns and leaves the heap and the observers alone. *)
Definition silent (m : M St unit) : Prop :=
  forall s, exists s', m s = (Ok tt, s') /\ heap s' = heap s
                       /\ observers (this s') = observers (this s).

End DataObservable.

(** ** The calls a client makes on one stream *)

Inductive op : Type :=
  | Publish (v : value)
  | Subscribe (cb : Callback) (filter : option (value -> value)) (replayPolicy : value)
  | Unsubscribe (id : nat)
  | Pause (id : nat)
  | Resume (id : nat)
  | ClearBuffer
  | UnsubscribeAll.

(** The state a call leaves behind, whether it returned or threw: the client
    catches and goes on. *)
Definition step (s : DataObservable.St) (o : op) : DataObservable.St :=
  match o with
  | Publish v => (DataObservable.setState v s).2
  | Subscribe cb f rp => (DataObservable.subscribe cb f rp s).2
  | Unsubscribe id => (DataObservable.unsubscribe id s).2
  | Pause id => (DataObservable.pause id s).2
  | Resume id => (DataObservable.resume id s).2
  | ClearBuffer => (DataObservable.clearBuffer s).2
  | UnsubscribeAll => (DataObservable.unsubscribeAll s).2
  end.

Definition run (ops : list op) (s : DataObservable.St) : DataObservable.St :=
  fold_left step ops s.

Definition published (ops : list op) : list value :=
  omap (fun o => match o with Publish v => Some v | _ => None end) ops.

Definition is_clear (o : op) : bool :=
  match o with ClearBuffer => true | _ => false end.

(** The last [k] elements of a list. *)
Definition last_n {A} (k : nat) (l : list A) : list A := drop (length l - k) l.

(** What one [setState] does to the buffer contents: push, then shift when
    the length exceeds the capacity. *)
Definition push_evict (k : Z) (l : list value) (v : value) : list value :=
  if Z.ltb k (Z.of_nat (length (l ++ [v]))) then tail (l ++ [v]) else l ++ [v].

(** ** class PubSubMFE *)

Module PubSubMFE.

(** The argument [params.storeMap]: absent, a [Map] object, or another
    object, of which the constructor reads the property ['default']. *)
Inductive store_arg : Type :=
  | StoreAbsent
  | StoreMap (m : nat)
  | StoreHolder (default : option nat).

Record params : Type := {
  storeMap : store_arg;
  ObservableConfig : value;   (* VUndefined: not supplied *)
}.

(** An instance: [this.store] (the location of a Map) and [this.config]. *)
Record t : Type := { store : nat; config : value }.

(** The heap, the Map objects by location, and the two static fields
    [PubSubMFE.store['default']] and
    [PubSubMFE.firstInstanceParams['default']]. *)
Record World : Type := {
  heap : Heap;
  maps : gmap nat (gmap string DataObservable.t);
  next_map : nat;
  next_ref : nat;
  static_store_default : option nat;
  firstInstanceParams : option params;
}.

Definition set_heap (h : Heap) (w : World) : World :=
  {| heap := h; maps := maps w; next_map := next_map w; next_ref := next_ref w;
     static_store_default := static_store_default w;
     firstInstanceParams := firstInstanceParams w |}.

Definition set_maps (ms : gmap nat (gmap string DataObservable.t)) (w : World) : World :=
  {| heap := heap w; maps := ms; next_map := next_map w; next_ref := next_ref w;
     static_store_default := static_store_default w;
     firstInstanceParams := firstInstanceParams w |}.

Definition set_static_store_default (d : option nat) (w : World) : World :=
  {| heap := heap w; maps := maps w; next_map := next_map w; next_ref := next_ref w;
     static_store_default := d;
     firstInstanceParams := firstInstanceParams w |}.

Definition set_firstInstanceParams (p : option params) (w : World) : World :=
  {| heap := heap w; maps := maps w; next_map := next_map w; next_ref := next_ref w;
     static_store_default := static_store_default w;
     firstInstanceParams := p |}.

(** [{}]: a new empty object. *)
Definition new_object : M World value := fun w =>
  (Ok (VObj (next_ref w) []),
   {| heap := heap w; maps := maps w; next_map := next_map w;
      next_ref := S (next_ref w);
      static_store_default := static_store_default w;
      firstInstanceParams := firstInstanceParams w |}).

(** [new Map()] *)
Definition new_Map : M World nat := fun w =>
  (Ok (next_map w),
   {| heap := heap w; maps := <[next_map w := ∅]> (maps w);
      next_map := S (next_map w); next_ref := next_ref w;
      static_store_default := static_store_default w;
      firstInstanceParams := firstInstanceParams w |}).

(** [map.has(key)] *)
Definition Map_has (m : nat) (key : string) (w : World) : bool :=
  match (maps w !!! m) !! key with
  | Some _ => true
  | None => false
  end.

(** [map.set(key, new DataObservable(config))] *)
Definition Map_set_new (m : nat) (key : string) (config : value) : M World unit :=
  modify (fun w =>
    let st := DataObservable.constructor config (heap w) in
    set_maps (<[m := <[key := DataObservable.this st]> (maps w !!! m)]> (maps w))
      (set_heap (DataObservable.heap st) w)).

(** [map.get(key).method(...)]: the method runs on the stream stored
    under [key] and on the heap; a missing key reads [undefined]. *)
Definition on_stream {A} (m : nat) (key : string)
    (method : M DataObservable.St A) : M World A := fun w =>
  match (maps w !!! m) !! key with
  | None => (Throw TypeError, w)
  | Some d =>
      let '(r, st) := method {| DataObservable.this := d; DataObservable.heap := heap w |} in
      (r, set_maps (<[m := <[key := DataObservable.this st]> (maps w !!! m)]> (maps w))
            (set_heap (DataObservable.heap st) w))
  end.

(** The loop [for (let key of keys) { if (!body(key)) return false; }
    return true;]; [None] when [body] ran out of fuel. *)
Fixpoint for_keys (body : string -> option bool) (keys : list string) : option bool :=
  match keys with
  | [] => Some true
  | key :: keys' =>
      match body key with
      | None => None
      | Some false => Some false
      | Some true => for_keys body keys'
      end
  end.

(** [_isEqual(val1, val2)], with the depth of the recursion bounded by
    [fuel].  The test on [Date] is left out: the values have no dates. *)
Fixpoint isEqual_fuel (fuel : nat) (val1 val2 : value) : option bool :=
  match fuel with
  | O => None
  | S fuel' =>
      if strict_eq val1 val2 then Some true
      else if negb (truthy val1) || negb (truthy val2)
              || (negb (typeof_object val1) && negb (typeof_object val2))
      then Some (strict_eq val1 val2)
      else if negb (strict_eq (get_prop val1 "prototype") (get_prop val2 "prototype"))
      then Some false
      else
        let keys1 := Object_keys val1 in
        let keys2 := Object_keys val2 in
        if negb (Nat.eqb (length keys1) (length keys2)) then Some false
        else
          for_keys (fun key =>
                      if negb (existsb (String.eqb key) keys2) then Some false
                      else isEqual_fuel fuel' (get_prop val1 key) (get_prop val2 key))
                   keys1
  end.

(** A bound on the depth of the recursion of [_isEqual]. *)
Fixpoint vsize (v : value) : nat :=
  match v with
  | VObj _ props => S (list_sum (map (fun kv => vsize kv.2) props))
  | _ => 1
  end.

Definition _isEqual (val1 val2 : value) : bool :=
  match isEqual_fuel (vsize val1 + vsize val2) val1 val2 with
  | Some b => b
  | None => false
  end.

(** [constructor(params = {})] *)
Definition constructor (p : params) : M World t :=
  do ObservableConfig <-
    (match PubSubMFE.ObservableConfig p with
     | VUndefined => new_object
     | v => ret v
     end);
  (do first <- gets firstInstanceParams;
   match first with
   | None => modify (set_firstInstanceParams (Some p))
   | Some _ => ret tt
   end) ;;
  do storeToUse <-
    (match storeMap p with
     | StoreMap m => ret (Some m)
     | StoreHolder d => ret d
     | StoreAbsent => ret None
     end);
  do storeToUse <-
    (match storeToUse with
     | Some m => ret m
     | None =>
         do d <- gets static_store_default;
         match d with
         | Some m => ret m
         | None =>
             do m <- new_Map;
             modify (set_static_store_default (Some m)) ;;
             ret m
         end
     end);
  do has <- gets (Map_has storeToUse "default");
  (if has then
     if negb (Nat.eqb (length (Object_keys ObservableConfig)) 0) then
       do first <- gets firstInstanceParams;
       match first with
       | None => throw TypeError
       | Some fp =>
           if negb (_isEqual (PubSubMFE.ObservableConfig fp) ObservableConfig)
           then throw ConfigConflict
           else ret tt
       end
     else ret tt
   else Map_set_new storeToUse "default" ObservableConfig) ;;
  ret {| store := storeToUse; config := ObservableConfig |}.

(** [this._generateObservable(channel)] *)
Definition _generateObservable (self : t) (channel : string) : M World unit :=
  do has <- gets (Map_has (store self) channel);
  if negb has then Map_set_new (store self) channel (config self)
  else ret tt.

(** [!channel] for the declared type of [channel]: a string, or nothing
    passed. *)
Definition no_channel (channel : option string) : bool :=
  match channel with
  | None => true
  | Some c => String.eqb c ""
  end.

Definition channel_key (channel : option string) : string := default "" channel.

(** [get(channel)]: the stream is named by the Map and the key it is
    stored under. *)
Definition get (self : t) (channel : option string) : M World (nat * string) :=
  if no_channel channel then throw ChannelRequired
  else
    _generateObservable self (channel_key channel) ;;
    ret (store self, channel_key channel).

(** [setState(channel, newState)] *)
Definition setState (self : t) (channel : option string) (newState : value) : M World unit :=
  if no_channel channel then throw ChannelRequired
  else if strict_eq newState VUndefined then throw NewStateRequired
  else
    _generateObservable self (channel_key channel) ;;
    on_stream (store self) (channel_key channel) (DataObservable.setState newState).

(** [subscribe(channel, callback, options)] *)
Definition subscribe (self : t) (channel : option string) (callback : option Callback)
    (filter : option (value -> value)) (replayPolicy : value) : M World nat :=
  if no_channel channel then throw ChannelRequired
  else match callback with
       | None => throw CallbackRequired
       | Some cb =>
           _generateObservable self (channel_key channel) ;;
           on_stream (store self) (channel_key channel)
             (DataObservable.subscribe cb filter replayPolicy)
       end.

(** [unsubscribeAll(channel)] *)
Definition unsubscribeAll (self : t) (channel : option string) : M World unit :=
  if no_channel channel then throw ChannelRequired
  else
    _generateObservable self (channel_key channel) ;;
    on_stream (store self) (channel_key channel) DataObservable.unsubscribeAll.

(** [clearBuffer(channel)] *)
Definition clearBuffer (self : t) (channel : option string) : M World unit :=
  if no_channel channel then throw ChannelRequired
  else
    _generateObservable self (channel_key channel) ;;
    on_stream (store self) (channel_key channel) DataObservable.clearBuffer.

(** [getReplayPolicy(channel)] *)
Definition getReplayPolicy (self : t) (channel : option string) : M World value :=
  if no_channel channel then throw ChannelRequired
  else
    _generateObservable self (channel_key channel) ;;
    on_stream (store self) (channel_key channel) DataObservable.getReplayPolicy.

(** *** Stream configurations *)

(** A field of the shape the README documents: [bufferSize], a positive
    integer, or [replayPolicy], ['last'] or ['all']. *)
Definition valid_field (kv : string * value) : bool :=
  if String.eqb kv.1 "bufferSize" then
    match kv.2 with VNum n => Z.ltb 0 n | _ => false end
  else if String.eqb kv.1 "replayPolicy" then
    match kv.2 with
    | VStr p => String.eqb p "last" || String.eqb p "all"
    | _ => false
    end
  else false.

(** A configuration object: fields of that shape, each at most once. *)
Definition stream_config (c : value) : bool :=
  match c with
  | VObj _ props => forallb valid_field props && bool_decide (NoDup props.*1)
  | _ => false
  end.

(** A configuration as a caller passes it: none, or a configuration
    object. *)
Definition config_arg (c : value) : bool :=
  match c with
  | VUndefined => true
  | _ => stream_config c
  end.

(** Deep equality of two configurations, in the words of the
    specification: both are objects, or neither is, and they have the
    same fields with the same values. *)
Definition deep_equal (c1 c2 : value) : Prop :=
  typeof_object c1 = typeof_object c2
  /\ forall k, assoc k (own_props c1) = assoc k (own_props c2).

(** Two values that are one and the same object have the same
    properties. *)
Definition same_object (c1 c2 : value) : Prop :=
  forall r p1 p2, c1 = VObj r p1 -> c2 = VObj r p2 -> p1 = p2.

(** The state of a process in which no instance has been constructed. *)
Definition initial : World :=
  {| heap := {| arrays := ∅; next_loc := 0; closures := []; delivered := [] |};
     maps := ∅; next_map := 0; next_ref := 0;
     static_store_default := None; firstInstanceParams := None |}.

End PubSubMFE.

(** ** What a delivery pass does *)

Module Delivery.
Import DataObservable.

(** Subscription [id] takes the value: not paused, and its filter, if it
    has one, returns a truthy value. *)
Definition eligible (cs : list Subscription) (v : value) (id : nat) : bool :=
  match cs !! id with
  | Some c => negb (paused c) && passes c v
  | None => false
  end.

Definition throws_on (cs : list Subscription) (v : value) (id : nat) : bool :=
  match cs !! id with
  | Some c => cb_throws (callback c) v
  | None => false
  end.

(** The callback invocations a walk over the calls [(id, v)] makes, in
    order, and whether it ended in a throw. *)
Fixpoint walk (cs : list Subscription) (calls : list (nat * value))
    : list (nat * value) * bool :=
  match calls with
  | [] => ([], false)
  | (id, v) :: rest =>
      if eligible cs v id then
        if throws_on cs v id then ([(id, v)], true)
        else let '(l, b) := walk cs rest in ((id, v) :: l, b)
      else walk cs rest
  end.

(** The policy a replay obeys: the subscription's own when it was
    supplied, else the stream's. *)
Definition effective_policy (override stream_default : value) : value :=
  match override with
  | VUndefined => stream_default
  | _ => override
  end.

(** The buffered values a replay under policy [policy] offers. *)
Definition replay_source (policy : value) (buf : list value) : list value :=
  if strict_eq policy (VStr "last") then slice_last buf
  else if strict_eq policy (VStr "all") then buf
  else [].

(** The outcome of a pass that ended in a throw or not. *)
Definition pass_outcome (threw : bool) : outcome unit :=
  if threw then Throw CallbackError else Ok tt.

End Delivery.

(** ** What a client observes of one stream *)

Module Observation.
Import DataObservable.

(** The values the callback of subscription [id] was called with, in the
    order of the calls. *)
Definition received_by (id : nat) (trace : list (nat * value)) : list value :=
  omap (fun p : nat * value => if Nat.eqb p.1 id then Some p.2 else None) trace.

(** The subscription environments. *)
Definition closures_view (s : St) : list Subscription := closures (heap s).

(** The array the stream writes to and the next location to allocate. *)
Definition alloc_view (s : St) : nat * nat := (buffer (this s), next_loc (heap s)).

(** The two fields the constructor reads off the configuration. *)
Definition config_view (s : St) : Z * value :=
  (bufferSize (this s), replayPolicy (this s)).

(** [observers.filter(o => o !== filteredObserver)] *)
Definition keep_others (id : nat) (os : list nat) : list nat :=
  List.filter (fun o => negb (Nat.eqb o id)) os.

Definition is_subscribe (o : op) : bool :=
  match o with Subscribe _ _ _ => true | _ => false end.

(** The shape of the states the methods produce: every observer is listed
    once and names an allocated environment, and the buffer is an allocated
    array. *)
Definition well_formed (s : St) : Prop :=
  NoDup (observers (this s))
  /\ (forall o, o ∈ observers (this s) -> o < length (closures (heap s)))
  /\ buffer (this s) < next_loc (heap s).

End Observation.

(** ** The calls a client makes on the registry *)

Module Client.
Import PubSubMFE.

(** A call on the registry class, on an instance, or directly on the stream
    stored under [key] in the Map [m]: the stream [get] returned, or the
    handle [subscribe] returned, which closes over that stream. *)
Inductive call : Type :=
  | NewMap
  | New (p : params)
  | Get (self : t) (channel : option string)
  | SetState (self : t) (channel : option string) (v : value)
  | SubscribeTo (self : t) (channel : option string) (callback : option Callback)
      (filter : option (value -> value)) (replayPolicy : value)
  | UnsubscribeAllOf (self : t) (channel : option string)
  | ClearBufferOf (self : t) (channel : option string)
  | GetReplayPolicyOf (self : t) (channel : option string)
  | Direct (m : nat) (key : string) (o : op).

(** The world a call leaves behind, whether it returned or threw. *)
Definition exec (w : World) (c : call) : World :=
  match c with
  | NewMap => (new_Map w).2
  | New p => (constructor p w).2
  | Get self ch => (get self ch w).2
  | SetState self ch v => (setState self ch v w).2
  | SubscribeTo self ch cb f rp => (subscribe self ch cb f rp w).2
  | UnsubscribeAllOf self ch => (unsubscribeAll self ch w).2
  | ClearBufferOf self ch => (clearBuffer self ch w).2
  | GetReplayPolicyOf self ch => (getReplayPolicy self ch w).2
  | Direct m key (Publish v) => (on_stream m key (DataObservable.setState v) w).2
  | Direct m key (Subscribe cb f rp) => (on_stream m key (DataObservable.subscribe cb f rp) w).2
  | Direct m key (Unsubscribe id) => (on_stream m key (DataObservable.unsubscribe id) w).2
  | Direct m key (Pause id) => (on_stream m key (DataObservable.pause id) w).2
  | Direct m key (Resume id) => (on_stream m key (DataObservable.resume id) w).2
  | Direct m key ClearBuffer => (on_stream m key DataObservable.clearBuffer w).2
  | Direct m key UnsubscribeAll => (on_stream m key DataObservable.unsubscribeAll w).2
  end.

Definition run_calls (cs : list call) (w : World) : World := fold_left exec cs w.

(** Every stored stream has an allocated buffer array, and no two stored
    streams have the same one. *)
Definition buffers_apart (w : World) : Prop :=
  (forall m k d, (maps w !!! m) !! k = Some d ->
                 DataObservable.buffer d < next_loc (heap w))
  /\ (forall m k d m' k' d',
        (maps w !!! m) !! k = Some d -> (maps w !!! m') !! k' = Some d' ->
        DataObservable.buffer d = DataObservable.buffer d' -> (m, k) = (m', k')).

(** What a method of the stream may do to the allocation. *)
Definition allocates {A} (method : M DataObservable.St A) : Prop :=
  forall st,
    let st' := (method st).2 in
    next_loc (DataObservable.heap st) <= next_loc (DataObservable.heap st')
    /\ (DataObservable.buffer (DataObservable.this st)
          < next_loc (DataObservable.heap st) ->
        DataObservable.buffer (DataObservable.this st')
          < next_loc (DataObservable.heap st'))
    /\ (DataObservable.buffer (DataObservable.this st')
          = DataObservable.buffer (DataObservable.this st)
        \/ next_loc (DataObservable.heap st)
           <= DataObservable.buffer (DataObservable.this st')).

(** [m] keeps the property [I] of the state, also when it throws. *)
Definition preserves {S A} (I : S -> Prop) (m : M S A) : Prop :=
  forall s, I s -> I (m s).2.

End Client.

(** * Properties *)

(** ** Reasoning about the monad *)

Section Stable.
Context {S X : Type} (proj : S -> X).

Lemma stable_ret {A} (a : A) : stable proj (ret a).
Proof. intros s. reflexivity. Qed.

Lemma stable_throw {A} e : stable proj (@throw S A e).
Proof. intros s. reflexivity. Qed.

Lemma stable_gets {A} (f : S -> A) : stable proj (gets f).
Proof. intros s. reflexivity. Qed.

Lemma stable_get : stable proj (@get S).
Proof. intros s. reflexivity. Qed.

Lemma stable_modify (f : S -> S) :
  (forall s, proj (f s) = proj s) -> stable proj (modify f).
Proof. intros H s. apply H. Qed.

Lemma stable_bind {A B} (m : M S A) (k : A -> M S B) :
  stable proj m -> (forall a, stable proj (k a)) -> stable proj (bind m k).
Proof.
  intros Hm Hk s. unfold bind. specialize (Hm s).
  destruct (m s) as [[a|e] s']; simpl in *.
  - rewrite Hk. exact Hm.
  - exact Hm.
Qed.

Lemma stable_forEach {A} (f : A -> M S unit) (l : list A) :
  (forall x, stable proj (f x)) -> stable proj (forEach f l).
Proof.
  intros Hf. induction l as [|x l IH]; simpl.
  - apply stable_ret.
  - apply stable_bind; auto.
Qed.
End Stable.

Lemma bind_run {S A B} (m : M S A) (k : A -> M S B) s :
  bind m k s = match m s with
               | (Ok a, s') => k a s'
               | (Throw e, s') => (Throw e, s')
               end.
Proof. reflexivity. Qed.

(** A [forEach] over an appended list. *)
Lemma forEach_app {S A} (f : A -> M S unit) (l1 l2 : list A) s :
  forEach f (l1 ++ l2) s =
  match forEach f l1 s with
  | (Ok _, s') => forEach f l2 s'
  | (Throw e, s') => (Throw e, s')
  end.
Proof.
  revert s. induction l1 as [|x l1 IH]; intros s; simpl.
  - reflexivity.
  - rewrite !bind_run. destruct (f x s) as [[[]|e] s']; [apply IH | reflexivity].
Qed.

(** ** Frame properties of the stream's methods *)

Module Frame.
Import DataObservable.

Ltac stable_step :=
  lazymatch goal with
  | |- stable _ (ret _) => apply stable_ret
  | |- stable _ (throw _) => apply stable_throw
  | |- stable _ (gets _) => apply stable_gets
  | |- stable _ get => apply stable_get
  | |- stable _ (forEach _ _) => apply stable_forEach; intros ?
  | |- stable _ (bind _ _) => apply stable_bind; [| intros ?]
  | |- stable _ (modify _) => apply stable_modify; intros ?; reflexivity
  | |- stable _ (if ?b then _ else _) => destruct b
  end.

Ltac stable_tac := repeat stable_step.

Lemma call_buffer id cb v : stable buffer_view (call id cb v).
Proof. unfold call. stable_tac. Qed.

Lemma filteredObserver_buffer id v : stable buffer_view (filteredObserver id v).
Proof.
  unfold filteredObserver, observerState_set. stable_tac.
  destruct a as [c|]; stable_tac.
  apply call_buffer.
Qed.

Lemma replay_buffer id : stable buffer_view (replay id).
Proof.
  unfold replay, observerState_set. stable_tac.
  destruct a as [c|]; stable_tac; apply filteredObserver_buffer.
Qed.

Lemma subscribe_buffer cb f rp : stable buffer_view (subscribe cb f rp).
Proof. unfold subscribe. stable_tac. apply replay_buffer. Qed.

Lemma unsubscribe_buffer id : stable buffer_view (unsubscribe id).
Proof. unfold unsubscribe. stable_tac. destruct a; stable_tac. Qed.

Lemma pause_buffer id : stable buffer_view (pause id).
Proof. unfold pause, write_paused. stable_tac. Qed.

Lemma resume_buffer id : stable buffer_view (resume id).
Proof. unfold resume, write_paused. stable_tac. apply replay_buffer. Qed.

Lemma unsubscribeAll_buffer : stable buffer_view unsubscribeAll.
Proof. unfold unsubscribeAll. stable_tac. Qed.

Lemma setState_policy v : stable policy_view (setState v).
Proof.
  unfold setState, filteredObserver, call. unfold observerState_set.
  repeat first [ stable_step
               | match goal with
                 | |- stable _ (match ?a with Some _ => _ | None => _ end) => destruct a
                 end ].
Qed.

Lemma contents_of_view s s' : buffer_view s' = buffer_view s -> contents s' = contents s.
Proof.
  unfold buffer_view, contents, array_read. intros H.
  injection H as _ Hb Ha. rewrite Hb, Ha. reflexivity.
Qed.

Lemma bufferSize_of_view s s' :
  buffer_view s' = buffer_view s -> bufferSize (this s') = bufferSize (this s).
Proof. unfold buffer_view. intros H. injection H as Hk _ _. exact Hk. Qed.

(** The buffer after [setState], whatever the subscribers do. *)
Lemma setState_contents v s :
  contents (setState v s).2 = push_evict (bufferSize (this s)) (contents s) v
  /\ bufferSize (this (setState v s).2) = bufferSize (this s).
Proof.
  unfold setState. rewrite bind_run. simpl.
  set (s1 := with_heap _ s).
  assert (Hc1 : contents s1 = contents s ++ [v]).
  { unfold s1, contents, with_heap, array_mutate, array_write, array_read. simpl.
    apply lookup_total_insert_eq. }
  assert (Hk1 : bufferSize (this s1) = bufferSize (this s)) by reflexivity.
  assert (Hb1 : buffer (this s1) = buffer (this s)) by reflexivity.
  clearbody s1. rewrite bind_run.
  set (m2 := bind get _).
  assert (H2 : contents (m2 s1).2 = push_evict (bufferSize (this s)) (contents s) v
               /\ bufferSize (this (m2 s1).2) = bufferSize (this s)
               /\ exists s2, m2 s1 = (Ok tt, s2)).
  { unfold m2. rewrite bind_run. simpl. unfold push_evict.
    rewrite Hc1, Hk1.
    destruct (Z.ltb _ _); simpl.
    - split; [|split; [exact Hk1 | eauto]].
      unfold contents, with_heap, array_mutate, array_write, array_read. simpl.
      rewrite lookup_total_insert_eq. f_equal. exact Hc1.
    - split; [exact Hc1 | split; [exact Hk1 | eauto]]. }
  destruct H2 as (Hc2 & Hk2 & s2 & Hs2). rewrite Hs2 in *. simpl in *.
  rewrite bind_run. simpl.
  match goal with |- context [forEach ?f ?l s2] =>
    assert (Hst : stable buffer_view (forEach f l)) end.
  { unfold observerState_set. stable_tac. apply filteredObserver_buffer. }
  specialize (Hst s2).
  split.
  - rewrite (contents_of_view _ _ Hst). exact Hc2.
  - rewrite (bufferSize_of_view _ _ Hst). exact Hk2.
Qed.

End Frame.

(** ** The bounded buffer *)

Module Buffer.
Import DataObservable Frame.

Lemma getBuffer_read_contents s : getBuffer_read s = contents s.
Proof. reflexivity. Qed.

Lemma constructor_contents config h : contents (constructor config h) = [].
Proof.
  unfold constructor, contents, array_new, array_read. simpl.
  apply lookup_total_insert_eq.
Qed.

Lemma clearBuffer_contents s :
  contents (clearBuffer s).2 = []
  /\ bufferSize (this (clearBuffer s).2) = bufferSize (this s).
Proof.
  unfold clearBuffer, modify, contents, array_new, array_read. simpl.
  split; [apply lookup_total_insert_eq | reflexivity].
Qed.

Lemma step_bufferSize s o : bufferSize (this (step s o)) = bufferSize (this s).
Proof.
  destruct o; cbn [step].
  - apply setState_contents.
  - apply bufferSize_of_view, subscribe_buffer.
  - apply bufferSize_of_view, unsubscribe_buffer.
  - apply bufferSize_of_view, pause_buffer.
  - apply bufferSize_of_view, resume_buffer.
  - apply clearBuffer_contents.
  - apply bufferSize_of_view, unsubscribeAll_buffer.
Qed.

Lemma step_contents s o :
  contents (step s o) =
  match o with
  | Publish v => push_evict (bufferSize (this s)) (contents s) v
  | ClearBuffer => []
  | _ => contents s
  end.
Proof.
  destruct o; cbn [step].
  - apply setState_contents.
  - apply contents_of_view, subscribe_buffer.
  - apply contents_of_view, unsubscribe_buffer.
  - apply contents_of_view, pause_buffer.
  - apply contents_of_view, resume_buffer.
  - apply clearBuffer_contents.
  - apply contents_of_view, unsubscribeAll_buffer.
Qed.

Lemma run_snoc ops o s : run (ops ++ [o]) s = step (run ops s) o.
Proof. unfold run. rewrite fold_left_app. reflexivity. Qed.

Lemma run_bufferSize ops s : bufferSize (this (run ops s)) = bufferSize (this s).
Proof.
  induction ops as [|o ops IH] using rev_ind; [reflexivity|].
  rewrite run_snoc, step_bufferSize. exact IH.
Qed.

Lemma push_evict_length (k : Z) l v :
  (0 < k)%Z -> length l <= Z.to_nat k ->
  length (push_evict k l v) <= Z.to_nat k.
Proof.
  intros Hk Hl. unfold push_evict.
  destruct (Z.ltb_spec k (Z.of_nat (length (l ++ [v])))) as [Hlt|Hge].
  - destruct l as [|x l]; simpl in *; [lia|].
    rewrite length_app. simpl. rewrite length_app in Hlt. simpl in Hlt. lia.
  - rewrite length_app in *. simpl in *. lia.
Qed.

Lemma push_evict_last_n (k : nat) vs v :
  0 < k ->
  push_evict (Z.of_nat k) (last_n k vs) v = last_n k (vs ++ [v]).
Proof.
  intros Hk. unfold push_evict, last_n.
  rewrite !length_app, length_drop. simpl.
  destruct (Z.ltb_spec (Z.of_nat k) (Z.of_nat (length vs - (length vs - k) + 1))) as [Hlt|Hge].
  - assert (Hle : k <= length vs) by lia.
    rewrite <- (drop_app_le vs [v]) by lia.
    change (tail (drop (length vs - k) (vs ++ [v])))
      with (drop 1 (drop (length vs - k) (vs ++ [v]))).
    rewrite drop_drop. f_equal. lia.
  - assert (Hlt : length vs < k) by lia.
    replace (length vs - k) with 0 by lia.
    replace (length vs + 1 - k) with 0 by lia.
    reflexivity.
Qed.

Lemma published_snoc ops o :
  published (ops ++ [o]) =
  published ops ++ match o with Publish v => [v] | _ => [] end.
Proof. unfold published. rewrite omap_app. destruct o; reflexivity. Qed.

End Buffer.

(** ** Properties of the delivery loop *)

Module DeliveryFacts.
Import DataObservable Delivery.

Lemma filteredObserver_run id v s :
  filteredObserver id v s =
  match closures (heap s) !! id with
  | Some c =>
      if negb (paused c) && passes c v then
        (pass_outcome (cb_throws (callback c) v),
         {| this := set_observerState
                      (<[cb_text (callback c) := v]> (observerState (this s))) (this s);
            heap := log_delivery id v (heap s) |})
      else (Ok tt, s)
  | None => (Ok tt, s)
  end.
Proof.
  unfold filteredObserver. rewrite bind_run. simpl.
  destruct (closures (heap s) !! id) as [c|]; [|reflexivity].
  destruct (negb (paused c) && passes c v); [|reflexivity].
  unfold call, observerState_set. rewrite !bind_run. simpl.
  destruct (cb_throws (callback c) v); reflexivity.
Qed.

Lemma forEach_map {S A B} (f : B -> M S unit) (g : A -> B) (l : list A) s :
  forEach f (map g l) s = forEach (fun x => f (g x)) l s.
Proof.
  revert s. induction l as [|x l IH]; intros s; simpl; [reflexivity|].
  rewrite !bind_run. destruct (f (g x) s) as [[[]|e] s']; [apply IH | reflexivity].
Qed.

Lemma observerState_set_silent key v : silent (observerState_set key v).
Proof. intros s. eexists. split; [reflexivity|]. split; reflexivity. Qed.

(** The delivery loop: [forEach] over calls of [filteredObserver], each
    preceded by a write to [observerState]. *)
Lemma forEach_deliver (pre : nat * value -> M St unit) calls :
  (forall p, silent (pre p)) ->
  forall s,
    let r := forEach (fun p => pre p ;; filteredObserver p.1 p.2) calls s in
    let w := walk (closures (heap s)) calls in
    r.1 = pass_outcome w.2
    /\ delivered (heap r.2) = delivered (heap s) ++ w.1
    /\ closures (heap r.2) = closures (heap s)
    /\ arrays (heap r.2) = arrays (heap s)
    /\ observers (this r.2) = observers (this s).
Proof.
  intros Hpre. induction calls as [|[id v] calls IH]; intros s; simpl.
  - rewrite app_nil_r. repeat split.
  - rewrite !bind_run.
    destruct (Hpre (id, v) s) as (s1 & Hs1 & Hh1 & Ho1). rewrite Hs1. simpl.
    rewrite filteredObserver_run, Hh1. unfold eligible, throws_on.
    destruct (closures (heap s) !! id) as [c|] eqn:Hc.
    + destruct (negb (paused c) && passes c v).
      * destruct (cb_throws (callback c) v); simpl.
        -- rewrite Ho1. repeat split.
        -- match goal with |- context [forEach ?f calls ?s2] =>
             specialize (IH s2); set (r := forEach f calls s2) in * end.
           simpl in IH. destruct IH as (H1 & H2 & H3 & H4 & H5).
           destruct (walk (closures (heap s)) calls) as [l b]. simpl in *.
           rewrite H1, H2, H3, H4, H5, <- app_assoc, Ho1. repeat split.
      * simpl. specialize (IH s1). simpl in IH. rewrite Hh1, Ho1 in IH. exact IH.
    + specialize (IH s1). simpl in IH. rewrite Hh1, Ho1 in IH. exact IH.
Qed.

(** ** Properties of [walk] *)

Lemma walk_quiet cs calls :
  (forall id v, (id, v) ∈ calls -> eligible cs v id = true -> throws_on cs v id = false) ->
  walk cs calls = (List.filter (fun p => eligible cs p.2 p.1) calls, false).
Proof.
  induction calls as [|[id v] calls IH]; intros H; simpl; [reflexivity|].
  rewrite IH by (intros; apply H; [right|]; assumption).
  destruct (eligible cs v id) eqn:He; [|reflexivity].
  rewrite (H id v) by (try left; assumption). reflexivity.
Qed.

Lemma walk_app cs calls1 calls2 :
  walk cs (calls1 ++ calls2) =
  if (walk cs calls1).2 then walk cs calls1
  else ((walk cs calls1).1 ++ (walk cs calls2).1, (walk cs calls2).2).
Proof.
  induction calls1 as [|[id v] calls1 IH]; simpl.
  - destruct (walk cs calls2); reflexivity.
  - destruct (eligible cs v id); [|exact IH].
    destruct (throws_on cs v id); [reflexivity|].
    rewrite IH. destruct (walk cs calls1) as [l b]. simpl.
    destruct b; reflexivity.
Qed.

Lemma walk_only_eligible cs calls id v :
  (id, v) ∈ (walk cs calls).1 -> (id, v) ∈ calls /\ eligible cs v id = true.
Proof.
  induction calls as [|[id' v'] calls IH]; simpl; intros H.
  - inversion H.
  - destruct (eligible cs v' id') eqn:He.
    + destruct (throws_on cs v' id').
      * simpl in H. apply list_elem_of_singleton in H. injection H as -> ->.
        split; [left | exact He].
      * destruct (walk cs calls) as [l b]. simpl in *.
        apply elem_of_cons in H as [H|H].
        -- injection H as -> ->. split; [left | exact He].
        -- destruct (IH H) as [H1 H2]. split; [right|]; assumption.
    + destruct (IH H) as [H1 H2]. split; [right|]; assumption.
Qed.

End DeliveryFacts.

(** ** Deliveries of the stream's methods *)

Module MethodFacts.
Import DataObservable Delivery DeliveryFacts Frame.

(** [setState] is the buffer update followed by the delivery loop. *)
Lemma setState_split v s :
  exists s2,
    setState v s =
      forEach (fun p => observerState_set filteredObserver_text (p : nat * value).2 ;;
                        filteredObserver p.1 p.2)
              (map (fun o => (o, v)) (observers (this s))) s2
    /\ closures (heap s2) = closures (heap s)
    /\ delivered (heap s2) = delivered (heap s)
    /\ observers (this s2) = observers (this s).
Proof.
  unfold setState. rewrite bind_run. simpl.
  set (s1 := with_heap _ s). rewrite bind_run.
  assert (H : exists s2, (do s0 <- get;
               if Z.ltb (bufferSize (this s0)) (Z.of_nat (length (contents s0)))
               then modify (with_heap (array_mutate (buffer (this s0)) tail))
               else ret ()) s1 = (Ok tt, s2)
              /\ closures (heap s2) = closures (heap s)
              /\ delivered (heap s2) = delivered (heap s)
              /\ observers (this s2) = observers (this s)).
  { rewrite bind_run. simpl. destruct (Z.ltb _ _); eexists; (split; [reflexivity|]);
      repeat split. }
  destruct H as (s2 & -> & Hc & Hd & Ho). exists s2.
  rewrite bind_run. simpl. rewrite forEach_map, Ho. repeat split; assumption.
Qed.

(** The deliveries of one [setState], throw or not. *)
Lemma setState_deliver v s :
  let r := setState v s in
  let w := walk (closures (heap s)) (map (fun o => (o, v)) (observers (this s))) in
  r.1 = pass_outcome w.2
  /\ delivered (heap r.2) = delivered (heap s) ++ w.1
  /\ closures (heap r.2) = closures (heap s)
  /\ observers (this r.2) = observers (this s).
Proof.
  destruct (setState_split v s) as (s2 & Hrun & Hc & Hd & Ho). simpl.
  rewrite Hrun.
  pose proof (forEach_deliver
    (fun p => observerState_set filteredObserver_text p.2)
    (map (fun o => (o, v)) (observers (this s)))
    (fun p => observerState_set_silent _ _) s2) as H.
  simpl in H. rewrite Hc, Hd, Ho in H.
  destruct H as (H1 & H2 & H3 & _ & H5). repeat split; assumption.
Qed.

Lemma policy_test (rp sp : value) (p : string) :
  strict_eq rp (VStr p) || (strict_eq rp VUndefined && strict_eq sp (VStr p))
  = strict_eq (effective_policy rp sp) (VStr p).
Proof. destruct rp; simpl; try reflexivity. apply orb_false_r. Qed.

(** The deliveries of one [replay], throw or not. *)
Lemma replay_deliver id c s :
  closures (heap s) !! id = Some c ->
  let r := replay id s in
  let vs := replay_source
              (effective_policy (sub_replayPolicy c) (replayPolicy (this s)))
              (contents s) in
  let w := walk (closures (heap s)) (map (pair id) vs) in
  r.1 = pass_outcome w.2
  /\ delivered (heap r.2) = delivered (heap s) ++ w.1
  /\ closures (heap r.2) = closures (heap s)
  /\ arrays (heap r.2) = arrays (heap s)
  /\ observers (this r.2) = observers (this s).
Proof.
  intros Hc. simpl. unfold replay. rewrite bind_run. simpl. rewrite Hc.
  rewrite bind_run. simpl. rewrite !policy_test. unfold replay_source.
  pose proof (fun vs => forEach_deliver
    (fun p => observerState_set (cb_text (callback c)) p.2)
    (map (pair id) vs)
    (fun p => observerState_set_silent _ _) s) as H.
  simpl in H.
  destruct (strict_eq _ (VStr "last")).
  - specialize (H (slice_last (contents s))). rewrite forEach_map in H. exact H.
  - destruct (strict_eq _ (VStr "all")).
    + specialize (H (contents s)). rewrite forEach_map in H. exact H.
    + simpl. rewrite app_nil_r. repeat split.
Qed.

Lemma walk_single cs id c vs :
  cs !! id = Some c -> paused c = false ->
  (forall v, v ∈ vs -> passes c v = true -> cb_throws (callback c) v = false) ->
  walk cs (map (pair id) vs) = (map (pair id) (List.filter (passes c) vs), false).
Proof.
  intros Hc Hp. induction vs as [|v vs IH]; intros Hq; simpl; [reflexivity|].
  unfold eligible, throws_on. rewrite Hc, Hp. simpl.
  rewrite IH by (intros; apply Hq; [right|]; assumption).
  destruct (passes c v) eqn:He; [|reflexivity].
  rewrite Hq by (try left; assumption). reflexivity.
Qed.

Lemma walk_paused cs id c vs :
  cs !! id = Some c -> paused c = true ->
  walk cs (map (pair id) vs) = ([], false).
Proof.
  intros Hc Hp. induction vs as [|v vs IH]; simpl; [reflexivity|].
  unfold eligible. rewrite Hc, Hp. simpl. exact IH.
Qed.

Lemma slice_last_last (l : list value) :
  slice_last l = match last l with Some v => [v] | None => [] end.
Proof.
  unfold slice_last. induction l as [|x l IH] using rev_ind; [reflexivity|].
  rewrite last_snoc, length_app. simpl.
  replace (length l + 1 - 1) with (length l) by lia.
  rewrite drop_app_length. reflexivity.
Qed.

Lemma filter_map_calls (P : value -> nat -> bool) (v : value) (os : list nat) :
  List.filter (fun p : nat * value => P p.2 p.1) (map (fun o => (o, v)) os)
  = map (fun o => (o, v)) (List.filter (P v) os).
Proof.
  induction os as [|o os IH]; simpl; [reflexivity|].
  destruct (P v o); simpl; rewrite IH; reflexivity.
Qed.

(** A publish in which no subscriber throws. *)
Lemma setState_quiet v s :
  (forall o, o ∈ observers (this s) ->
             eligible (closures (heap s)) v o = true ->
             throws_on (closures (heap s)) v o = false) ->
  let r := setState v s in
  r.1 = Ok tt
  /\ delivered (heap r.2) =
       delivered (heap s) ++
       map (fun o => (o, v)) (List.filter (eligible (closures (heap s)) v) (observers (this s)))
  /\ closures (heap r.2) = closures (heap s)
  /\ observers (this r.2) = observers (this s).
Proof.
  intros Hq. destruct (setState_deliver v s) as (H1 & H2 & H3 & H4). simpl.
  assert (Hw : walk (closures (heap s)) (map (fun o => (o, v)) (observers (this s)))
               = (map (fun o => (o, v))
                    (List.filter (eligible (closures (heap s)) v) (observers (this s))),
                  false)).
  { rewrite walk_quiet.
    - rewrite (filter_map_calls (eligible (closures (heap s)))). reflexivity.
    - intros id v' Hin. apply list_elem_of_fmap in Hin as (o & Heq & Ho).
      injection Heq as -> ->. apply Hq. exact Ho. }
  rewrite Hw in H1, H2. simpl in H1, H2. rewrite H1, H2, H3, H4. repeat split.
Qed.

Lemma subscribe_run cb filter rp s :
  subscribe cb filter rp s =
  match replay (length (closures (heap s))) (registered cb filter rp s) with
  | (Ok _, s2) => (Ok (length (closures (heap s))), s2)
  | (Throw e, s2) => (Throw e, s2)
  end.
Proof.
  unfold subscribe, bind, gets, modify, ret. simpl.
  change (with_this _ (with_heap _ s)) with (registered cb filter rp s).
  destruct (replay _ _) as [[[]|e] s2]; reflexivity.
Qed.

Lemma registered_lookup cb filter rp s :
  closures (heap (registered cb filter rp s)) !! length (closures (heap s))
  = Some {| callback := cb; sub_filter := filter;
            sub_replayPolicy := rp; paused := false |}.
Proof. simpl. apply list_lookup_middle. reflexivity. Qed.

(** The deliveries of one [subscribe], throw or not. *)
Lemma subscribe_deliver cb filter rp s :
  let id := length (closures (heap s)) in
  let c := {| callback := cb; sub_filter := filter;
              sub_replayPolicy := rp; paused := false |} in
  let r := subscribe cb filter rp s in
  let vs := replay_source (effective_policy rp (replayPolicy (this s))) (contents s) in
  let w := walk (closures (heap s) ++ [c]) (map (pair id) vs) in
  r.1 = (if w.2 then Throw CallbackError else Ok id)
  /\ delivered (heap r.2) = delivered (heap s) ++ w.1
  /\ closures (heap r.2) = closures (heap s) ++ [c]
  /\ observers (this r.2) = observers (this s) ++ [id].
Proof.
  simpl. rewrite subscribe_run.
  pose proof (replay_deliver _ _ _ (registered_lookup cb filter rp s)) as H.
  simpl in H. destruct H as (H1 & H2 & H3 & _ & H5).
  change (contents (registered cb filter rp s)) with (contents s) in *.
  destruct (replay _ _) as [[[]|e] s2]; simpl in *;
    destruct (walk _ _) as [l b]; simpl in *; destruct b; simpl in *;
    try discriminate; try (injection H1 as ->); repeat split; assumption.
Qed.

Lemma resume_run id s : resume id s = replay id (unpaused id s).
Proof.
  unfold resume, write_paused. rewrite bind_run. reflexivity.
Qed.

(** The deliveries of one [resume], throw or not. *)
Lemma resume_deliver id c s :
  closures (heap s) !! id = Some c ->
  let r := resume id s in
  let cs := alter (set_paused false) id (closures (heap s)) in
  let vs := replay_source
              (effective_policy (sub_replayPolicy c) (replayPolicy (this s)))
              (contents s) in
  let w := walk cs (map (pair id) vs) in
  r.1 = pass_outcome w.2
  /\ delivered (heap r.2) = delivered (heap s) ++ w.1
  /\ closures (heap r.2) = cs
  /\ cs !! id = Some (set_paused false c)
  /\ observers (this r.2) = observers (this s).
Proof.
  intros Hc. simpl. rewrite resume_run.
  assert (Hc' : closures (heap (unpaused id s)) !! id = Some (set_paused false c)).
  { simpl. rewrite list_lookup_alter_eq, Hc. reflexivity. }
  pose proof (replay_deliver _ _ _ Hc') as H. simpl in H.
  destruct H as (H1 & H2 & H3 & _ & H5).
  change (contents (unpaused id s)) with (contents s) in *.
  repeat split; assumption.
Qed.

Lemma received_iff cs v (os : list nat) id :
  id ∈ os ->
  ((id, v) ∈ map (fun o => (o, v)) (List.filter (eligible cs v) os)
   <-> eligible cs v id = true).
Proof.
  intros Hin. rewrite list_elem_of_fmap. split.
  - intros (o & Heq & Ho). injection Heq as <-.
    apply list_elem_of_In, filter_In in Ho as [_ He]. exact He.
  - intros He. exists id. split; [reflexivity|].
    apply list_elem_of_In, filter_In. split; [apply list_elem_of_In, Hin | exact He].
Qed.

(** Publishes reach no paused subscription. *)
Lemma publishes_while_paused id c vs s :
  closures (heap s) !! id = Some c -> paused c = true ->
  let s' := run (map Publish vs) s in
  (exists live, delivered (heap s') = delivered (heap s) ++ live
                /\ forall v, (id, v) ∉ live)
  /\ closures (heap s') = closures (heap s)
  /\ observers (this s') = observers (this s)
  /\ replayPolicy (this s') = replayPolicy (this s).
Proof.
  intros Hc Hp. revert s Hc. induction vs as [|v vs IH]; intros s Hc; simpl.
  - split; [|repeat split]. exists []. rewrite app_nil_r. split; [reflexivity|].
    intros v Hv. inversion Hv.
  - destruct (setState_deliver v s) as (_ & H2 & H3 & H4).
    pose proof (setState_policy v s) as Hrp. unfold policy_view in Hrp.
    specialize (IH (setState v s).2). rewrite H3 in IH. specialize (IH Hc).
    simpl in IH. destruct IH as ((live & Hl & Hn) & Hcs & Hos & Hrs).
    unfold run in *. simpl. rewrite Hcs, Hos, Hrs, H4, Hrp. split; [|repeat split].
    eexists. rewrite Hl, H2, <- app_assoc. split; [reflexivity|].
    intros v' Hin. apply elem_of_app in Hin as [Hin|Hin]; [|exact (Hn v' Hin)].
    apply walk_only_eligible in Hin as [_ He].
    unfold eligible in He. rewrite Hc, Hp in He. discriminate.
Qed.

End MethodFacts.

(** ** Removal of a subscription *)

Module Removal.
Import DataObservable Delivery DeliveryFacts MethodFacts.

Lemma filter_twice {A} (f : A -> bool) (l : list A) :
  List.filter f (List.filter f l) = List.filter f l.
Proof.
  induction l as [|x l IH]; simpl; [reflexivity|].
  destruct (f x) eqn:Hf; simpl; rewrite ?Hf, IH; reflexivity.
Qed.

(** A second [unsubscribe] changes nothing. *)
Lemma unsubscribe_idempotent id s :
  unsubscribe id (unsubscribe id s).2 = (Ok tt, (unsubscribe id s).2).
Proof.
  unfold unsubscribe, bind, gets, modify. simpl.
  destruct (closures (heap s) !! id) as [c|] eqn:Hc; simpl; rewrite Hc; [|reflexivity].
  unfold with_this, set_observers, set_observerState. simpl.
  rewrite filter_twice, delete_delete_eq. reflexivity.
Qed.

Lemma unsubscribe_observers id s :
  id ∉ observers (this (unsubscribe id s).2) \/ closures (heap s) !! id = None.
Proof.
  unfold unsubscribe, bind, gets, modify. simpl.
  destruct (closures (heap s) !! id) as [c|]; [left | right; reflexivity].
  simpl. intros Hin. apply list_elem_of_In, filter_In in Hin as [_ Hne].
  rewrite Nat.eqb_refl in Hne. discriminate.
Qed.

(** A publish reaches no subscription that is out of [observers]. *)
Lemma removed_no_live_delivery id v s :
  id ∉ observers (this s) ->
  exists received,
    delivered (heap (setState v s).2) = delivered (heap s) ++ received
    /\ forall v', (id, v') ∉ received.
Proof.
  intros Hout. destruct (setState_deliver v s) as (_ & H2 & _ & _).
  eexists. split; [exact H2|].
  intros v' Hin. apply walk_only_eligible in Hin as [Hin _].
  apply list_elem_of_fmap in Hin as (o & Heq & Ho). injection Heq as -> _.
  exact (Hout Ho).
Qed.

End Removal.

(** ** The argument checks of the registry *)

Module RegistryFacts.
Import PubSubMFE.

Lemma strict_eq_undefined v : strict_eq v VUndefined = true <-> v = VUndefined.
Proof. destruct v; simpl; split; intros H; try discriminate; reflexivity. Qed.

(** After [_generateObservable] the channel is in the store. *)
Lemma generateObservable_has self key w :
  exists w', _generateObservable self key w = (Ok tt, w')
             /\ Map_has (store self) key w' = true.
Proof.
  unfold _generateObservable. rewrite bind_run. simpl.
  destruct (Map_has (store self) key w) eqn:Hh; simpl.
  - eexists. split; [reflexivity | exact Hh].
  - eexists. split; [reflexivity|].
    unfold Map_has, set_maps, set_heap. simpl.
    rewrite lookup_total_insert_eq, lookup_insert_eq. reflexivity.
Qed.

(** A method run on a stored stream ends as the method does, and the
    channel stays in the store. *)
Lemma on_stream_has {A} m key (method : M DataObservable.St A) w :
  Map_has m key w = true ->
  exists d,
    (maps w !!! m) !! key = Some d
    /\ (on_stream m key method w).1
       = (method {| DataObservable.this := d; DataObservable.heap := heap w |}).1
    /\ Map_has m key (on_stream m key method w).2 = true.
Proof.
  unfold Map_has, on_stream. intros Hh.
  destruct ((maps w !!! m) !! key) as [d|]; [|discriminate].
  exists d. split; [reflexivity|].
  destruct (method _) as [r st]. simpl. split; [reflexivity|].
  rewrite lookup_total_insert_eq, lookup_insert_eq. reflexivity.
Qed.

(** A publish throws what a callback threw, nothing else. *)
Lemma stream_setState_throws v st e :
  (DataObservable.setState v st).1 = Throw e -> e = CallbackError.
Proof.
  destruct (MethodFacts.setState_deliver v st) as (H1 & _). simpl in H1.
  rewrite H1. unfold Delivery.pass_outcome.
  destruct (Delivery.walk _ _).2; intros H; [injection H as <-; reflexivity | discriminate].
Qed.

End RegistryFacts.

(** ** The comparison of configurations *)

Module ConfigFacts.
Import PubSubMFE.

Lemma assoc_Some_in k v (props : list (string * value)) :
  assoc k props = Some v -> (k, v) ∈ props.
Proof.
  induction props as [|[k' v'] props IH]; simpl; [discriminate|].
  destruct (String.eqb_spec k k') as [->|_].
  - intros [= ->]. left.
  - intros H. right. exact (IH H).
Qed.

Lemma assoc_is_Some k props : is_Some (assoc k props) <-> k ∈ props.*1.
Proof.
  induction props as [|[k' v'] props IH]; simpl.
  - split; [intros [? H]; discriminate | intros H; inversion H].
  - destruct (String.eqb_spec k k') as [->|Hne].
    + split; [intros _; left | eauto].
    + rewrite IH. split; [intros H; right; exact H|].
      intros H. apply elem_of_cons in H as [H|H]; [contradiction | exact H].
Qed.

Lemma existsb_keys k (keys : list string) :
  existsb (String.eqb k) keys = true <-> k ∈ keys.
Proof.
  rewrite existsb_exists. split.
  - intros (x & Hin & Heq). apply String.eqb_eq in Heq as ->.
    apply list_elem_of_In, Hin.
  - intros H. exists k. split; [apply list_elem_of_In, H | apply String.eqb_refl].
Qed.

(** *** [_isEqual] always has fuel enough *)

Lemma vsize_pos v : 1 <= vsize v.
Proof. destruct v; simpl; lia. Qed.

Lemma vsize_in (k : string) (v : value) (props : list (string * value)) :
  (k, v) ∈ props -> vsize v <= list_sum (map (fun kv => vsize kv.2) props).
Proof.
  induction props as [|kv props IH]; intros H; [inversion H|].
  apply elem_of_cons in H as [<-|H]; simpl; [lia|]. specialize (IH H). lia.
Qed.

Lemma vsize_chars i s k v :
  assoc k (imap (fun j c => (pretty (i + j), c)) (string_chars s)) = Some v ->
  vsize v = 1.
Proof.
  revert i. induction s as [|c s IH]; intros i; simpl; [discriminate|].
  destruct (String.eqb k (pretty (i + 0))); [intros [= <-]; reflexivity|].
  intros H. apply (IH (S i)). erewrite imap_ext; [exact H|].
  intros j x _. simpl. f_equal. f_equal. lia.
Qed.

Lemma vsize_get_prop v k : vsize (get_prop v k) <= vsize v.
Proof.
  unfold get_prop.
  destruct (assoc k (own_props v)) as [x|] eqn:Hx; simpl; [|apply vsize_pos].
  destruct v; simpl in Hx; try discriminate.
  - apply (vsize_chars 0) in Hx. simpl. lia.
  - apply assoc_Some_in, vsize_in in Hx. simpl. lia.
Qed.

Lemma vsize_get_prop_obj r props k :
  k ∈ props.*1 -> vsize (get_prop (VObj r props) k) < vsize (VObj r props).
Proof.
  intros Hk. apply assoc_is_Some in Hk as [x Hx].
  unfold get_prop. simpl. rewrite Hx. simpl.
  apply assoc_Some_in, vsize_in in Hx. lia.
Qed.

Lemma for_keys_is_Some body keys :
  (forall k, k ∈ keys -> is_Some (body k)) -> is_Some (for_keys body keys).
Proof.
  induction keys as [|k keys IH]; intros H; simpl; [eauto|].
  destruct (H k) as [[] Hb]; [left | | ]; rewrite Hb; [|eauto].
  apply IH. intros k' Hk'. apply H. right. exact Hk'.
Qed.

Lemma isEqual_fuel_enough n v1 v2 :
  vsize v1 + vsize v2 <= n -> is_Some (isEqual_fuel n v1 v2).
Proof.
  revert v1 v2. induction n as [|n IH]; intros v1 v2 Hn.
  { pose proof (vsize_pos v1). lia. }
  simpl. destruct (strict_eq v1 v2); [eauto|].
  destruct (negb (truthy v1) || negb (truthy v2)
            || negb (typeof_object v1) && negb (typeof_object v2)) eqn:Hc; [eauto|].
  destruct (negb (strict_eq _ _)); [eauto|].
  destruct (negb (Nat.eqb _ _)); [eauto|].
  apply for_keys_is_Some. intros k Hk1.
  destruct (negb (existsb (String.eqb k) (Object_keys v2))) eqn:Hk2; [eauto|].
  apply negb_false_iff, existsb_keys in Hk2.
  apply IH.
  apply orb_false_iff in Hc as [Hc Ho]. apply orb_false_iff in Hc as [Ht1 Ht2].
  pose proof (vsize_get_prop v1 k). pose proof (vsize_get_prop v2 k).
  destruct v1 as [| | | | |r1 p1]; try discriminate;
    destruct v2 as [| | | | |r2 p2]; try discriminate.
  - pose proof (vsize_get_prop_obj r2 p2 k Hk2). lia.
  - pose proof (vsize_get_prop_obj r2 p2 k Hk2). lia.
  - pose proof (vsize_get_prop_obj r2 p2 k Hk2). lia.
  - pose proof (vsize_get_prop_obj r1 p1 k Hk1). lia.
  - pose proof (vsize_get_prop_obj r1 p1 k Hk1). lia.
  - pose proof (vsize_get_prop_obj r1 p1 k Hk1). lia.
  - pose proof (vsize_get_prop_obj r1 p1 k Hk1). lia.
Qed.

(** [_isEqual] is the result of the bounded recursion. *)
Lemma isEqual_total v1 v2 :
  isEqual_fuel (vsize v1 + vsize v2) v1 v2 = Some (_isEqual v1 v2).
Proof.
  unfold _isEqual.
  destruct (isEqual_fuel_enough (vsize v1 + vsize v2) v1 v2 (le_n _)) as [b ->].
  reflexivity.
Qed.

(** *** [_isEqual] on configurations *)

Lemma isEqual_primitive f v1 v2 :
  primitive v1 = true -> primitive v2 = true ->
  isEqual_fuel (S f) v1 v2 = Some (strict_eq v1 v2).
Proof.
  unfold primitive. intros H1 H2. simpl.
  destruct (strict_eq v1 v2); [reflexivity|].
  rewrite H1, H2. simpl. rewrite orb_true_r. reflexivity.
Qed.

Lemma strict_eq_primitive v1 v2 :
  primitive v1 = true -> strict_eq v1 v2 = true -> v1 = v2.
Proof.
  destruct v1, v2; simpl; try discriminate; intros _ H; try reflexivity.
  - apply Bool.eqb_prop in H. congruence.
  - apply Z.eqb_eq in H. congruence.
  - apply String.eqb_eq in H. congruence.
Qed.

Lemma strict_eq_refl v : strict_eq v v = true.
Proof.
  destruct v; simpl; try reflexivity.
  - apply Bool.eqb_reflx.
  - apply Z.eqb_refl.
  - apply String.eqb_refl.
  - apply Nat.eqb_refl.
Qed.

Lemma for_keys_forallb body (b : string -> bool) keys :
  (forall k, k ∈ keys -> body k = Some (b k)) ->
  for_keys body keys = Some (forallb b keys).
Proof.
  induction keys as [|k keys IH]; intros H; simpl; [reflexivity|].
  rewrite (H k) by left. destruct (b k); [|reflexivity].
  apply IH. intros k' Hk'. apply H. right. exact Hk'.
Qed.

Lemma valid_field_value k v :
  valid_field (k, v) = true ->
  primitive v = true /\ v <> VUndefined /\ k <> "prototype".
Proof.
  unfold valid_field. simpl.
  destruct (String.eqb_spec k "bufferSize") as [->|_].
  { destruct v; try discriminate. repeat split; discriminate. }
  destruct (String.eqb_spec k "replayPolicy") as [->|_]; [|discriminate].
  destruct v; try discriminate. repeat split; discriminate.
Qed.

Lemma config_assoc props k v :
  forallb valid_field props = true -> assoc k props = Some v ->
  primitive v = true /\ v <> VUndefined /\ k <> "prototype".
Proof.
  intros Hv Ha. apply assoc_Some_in, list_elem_of_In in Ha.
  rewrite forallb_forall in Hv. exact (valid_field_value _ _ (Hv _ Ha)).
Qed.

Lemma config_get_prop r props k :
  forallb valid_field props = true -> primitive (get_prop (VObj r props) k) = true.
Proof.
  intros Hv. unfold get_prop. simpl.
  destruct (assoc k props) as [v|] eqn:Ha; [|reflexivity].
  exact (proj1 (config_assoc _ _ _ Hv Ha)).
Qed.

Lemma config_prototype r props :
  forallb valid_field props = true -> get_prop (VObj r props) "prototype" = VUndefined.
Proof.
  intros Hv. unfold get_prop. simpl.
  destruct (assoc "prototype" props) as [v|] eqn:Ha; [|reflexivity].
  destruct (config_assoc _ _ _ Hv Ha) as (_ & _ & H). contradiction.
Qed.

(** What [_isEqual] computes on two configuration objects. *)
Lemma isEqual_configs r1 p1 r2 p2 :
  stream_config (VObj r1 p1) = true -> stream_config (VObj r2 p2) = true ->
  _isEqual (VObj r1 p1) (VObj r2 p2)
  = Nat.eqb r1 r2
    || (Nat.eqb (length p1) (length p2)
        && forallb (fun k => existsb (String.eqb k) p2.*1
                             && strict_eq (get_prop (VObj r1 p1) k)
                                          (get_prop (VObj r2 p2) k)) p1.*1).
Proof.
  intros H1 H2. simpl in H1, H2.
  apply andb_true_iff in H1 as [Hv1 _]. apply andb_true_iff in H2 as [Hv2 _].
  unfold _isEqual.
  change (vsize (VObj r1 p1)) with (S (list_sum (map (fun kv => vsize kv.2) p1))).
  change (vsize (VObj r2 p2)) with (S (list_sum (map (fun kv => vsize kv.2) p2))).
  rewrite Nat.add_succ_r. cbn [Nat.add isEqual_fuel strict_eq truthy typeof_object negb orb andb].
  destruct (Nat.eqb r1 r2); [reflexivity|]. cbn [orb].
  rewrite !config_prototype by assumption. cbn [strict_eq negb].
  unfold Object_keys. cbn [own_props]. rewrite !length_fmap.
  destruct (Nat.eqb (length p1) (length p2)); [|reflexivity]. cbn [negb andb].
  erewrite for_keys_forallb; [reflexivity|].
  intros k _. cbn beta.
  destruct (existsb (String.eqb k) p2.*1); [|reflexivity]. cbn [negb andb].
  apply isEqual_primitive; apply config_get_prop; assumption.
Qed.

Lemma config_NoDup r props : stream_config (VObj r props) = true -> NoDup props.*1.
Proof.
  simpl. intros H. apply andb_true_iff in H as [_ H]. apply bool_decide_eq_true in H. exact H.
Qed.

(** On configuration objects [_isEqual] decides deep equality. *)
Lemma isEqual_deep_equal c1 c2 :
  stream_config c1 = true -> stream_config c2 = true -> same_object c1 c2 ->
  (_isEqual c1 c2 = true <-> deep_equal c1 c2).
Proof.
  intros H1 H2 Hsame.
  destruct c1 as [| | | | |r1 p1]; try discriminate.
  destruct c2 as [| | | | |r2 p2]; try discriminate.
  rewrite isEqual_configs by assumption.
  pose proof (config_NoDup _ _ H1) as Hn1. pose proof (config_NoDup _ _ H2) as Hn2.
  simpl in H1, H2.
  apply andb_true_iff in H1 as [Hv1 _]. apply andb_true_iff in H2 as [Hv2 _].
  unfold deep_equal. cbn [own_props typeof_object].
  split.
  - intros H. split; [reflexivity|].
    apply orb_true_iff in H as [H|H].
    { apply Nat.eqb_eq in H. subst r2. rewrite (Hsame r1 p1 p2 eq_refl eq_refl).
      reflexivity. }
    apply andb_true_iff in H as [Hlen Hall]. apply Nat.eqb_eq in Hlen.
    rewrite forallb_forall in Hall.
    assert (Hsub : forall k, k ∈ p1.*1 -> k ∈ p2.*1).
    { intros k Hk. apply list_elem_of_In, Hall, andb_true_iff in Hk as [Hk _].
      apply existsb_keys, Hk. }
    assert (Hperm : p1.*1 ≡ₚ p2.*1).
    { apply submseteq_length_Permutation.
      - apply NoDup_submseteq; assumption.
      - rewrite !length_fmap. lia. }
    intros k. destruct (assoc k p1) as [v1|] eqn:Ha1.
    + assert (Hk : k ∈ p1.*1) by (apply assoc_is_Some; eauto).
      pose proof (Hk' := Hk). apply list_elem_of_In, Hall, andb_true_iff in Hk' as [_ Hs].
      apply Hsub, assoc_is_Some in Hk as [v2 Ha2].
      unfold get_prop in Hs. cbn [own_props] in Hs. rewrite Ha1, Ha2 in Hs. simpl in Hs.
      rewrite Ha2. f_equal. apply strict_eq_primitive; [|exact Hs].
      exact (proj1 (config_assoc _ _ _ Hv1 Ha1)).
    + destruct (assoc k p2) as [v2|] eqn:Ha2; [|reflexivity].
      assert (Hk : k ∈ p2.*1) by (apply assoc_is_Some; eauto).
      rewrite <- Hperm in Hk. apply assoc_is_Some in Hk as [v1 Hv]. congruence.
  - intros [_ H]. apply orb_true_iff. right.
    assert (Hmem : forall k, k ∈ p1.*1 <-> k ∈ p2.*1).
    { intros k. rewrite <- !assoc_is_Some, H. reflexivity. }
    apply andb_true_iff. split.
    + apply Nat.eqb_eq. rewrite <- !(length_fmap fst).
      apply Permutation_length, NoDup_Permutation; assumption.
    + apply forallb_forall. intros k Hk. apply list_elem_of_In in Hk.
      apply andb_true_iff. split; [apply existsb_keys, Hmem, Hk|].
      unfold get_prop. cbn [own_props]. rewrite H. apply strict_eq_refl.
Qed.

(** Against no recorded configuration [_isEqual] is false. *)
Lemma isEqual_undefined c : stream_config c = true -> _isEqual VUndefined c = false.
Proof. destruct c; try discriminate. reflexivity. Qed.

(** *** The constructor on a populated shared store *)

Lemma Object_keys_nil c :
  Nat.eqb (length (Object_keys c)) 0 = true <-> Object_keys c = [].
Proof.
  rewrite Nat.eqb_eq. split; [apply length_zero_iff_nil | intros ->; reflexivity].
Qed.

(** A later instance on the shared store, once an instance is recorded and
    the shared store has its channel ['default']. *)
Lemma constructor_shared w fp m c2 :
  firstInstanceParams w = Some fp ->
  static_store_default w = Some m ->
  Map_has m "default" w = true ->
  config_arg c2 = true ->
  (constructor {| storeMap := StoreAbsent; ObservableConfig := c2 |} w).1
  = if Nat.eqb (length (Object_keys c2)) 0
    then Ok {| store := m;
               config := match c2 with VUndefined => VObj (next_ref w) [] | _ => c2 end |}
    else if _isEqual (ObservableConfig fp) c2
         then Ok {| store := m; config := c2 |}
         else Throw ConfigConflict.
Proof.
  intros Hf Hs Hh Hc.
  destruct c2 as [| | | | |r2 p2]; try discriminate;
    unfold constructor, bind, gets, modify, ret, throw, new_object; cbn;
    rewrite ?Hf, ?Hs; cbn; rewrite ?Hf, ?Hs; cbn;
    unfold Map_has in *; cbn; destruct ((maps w !!! m) !! "default"); try discriminate; cbn.
  - reflexivity.
  - destruct (Nat.eqb (length p2.*1) 0); cbn; [reflexivity|]. rewrite Hf.
    destruct (_isEqual (ObservableConfig fp) (VObj r2 p2)); reflexivity.
Qed.

(** The first instance of a process, built without a backing map,
    records its parameters and populates the shared store. *)
Lemma constructor_first w c1 :
  firstInstanceParams w = None -> static_store_default w = None ->
  let p1 := {| storeMap := StoreAbsent; ObservableConfig := c1 |} in
  let r := constructor p1 w in
  (exists inst, r.1 = Ok inst /\ store inst = next_map w)
  /\ firstInstanceParams r.2 = Some p1
  /\ static_store_default r.2 = Some (next_map w)
  /\ Map_has (next_map w) "default" r.2 = true.
Proof.
  intros Hf Hs p1 r. unfold r, p1, constructor.
  destruct c1;
    unfold bind, gets, modify, ret, throw, new_object, new_Map; cbn;
    rewrite ?Hf, ?Hs; cbn; rewrite ?Hf, ?Hs; cbn;
    match goal with
    | |- context [Map_has ?a ?b ?c] =>
        replace (Map_has a b c) with false
          by (unfold Map_has; cbn; rewrite lookup_total_insert_eq, lookup_empty;
              reflexivity)
    end;
    cbn; (split; [eauto|]); (split; [reflexivity|]); (split; [reflexivity|]);
    unfold Map_has; cbn;
    rewrite lookup_total_insert_eq, lookup_insert_eq; reflexivity.
Qed.

End ConfigFacts.

(** * The claims *)

Section Claims.
  Import DataObservable Delivery DeliveryFacts MethodFacts Frame Buffer.

(** C1. A stream created with bufferSize = k, k a positive integer, keeps
    0 <= |buffer| <= k after every sequence of calls, whatever the
    subscribers do; as long as the buffer is not cleared it holds the last
    min(N, k) published values in publish order, oldest first, so that once
    N > k values were published getBuffer() reads exactly the last k. *)
Theorem C1_bounded_buffer (k : Z) (config : value) (h0 : Heap) (ops : list op) :
  (0 < k)%Z ->
  get_prop config "bufferSize" = VNum k ->
  let s := run ops (constructor config h0) in
  let N := length (published ops) in
  0 <= length (getBuffer_read s) <= Z.to_nat k
  /\ (forallb (fun o => negb (is_clear o)) ops = true ->
      getBuffer_read s = last_n (Z.to_nat k) (published ops)
      /\ (Z.to_nat k < N ->
          length (getBuffer_read s) = Z.to_nat k
          /\ getBuffer_read s = drop (N - Z.to_nat k) (published ops))).
Proof.
  intros Hk Hcfg. simpl.
  assert (Hsize : forall ops', bufferSize (this (run ops' (constructor config h0))) = k).
  { intros ops'. rewrite run_bufferSize. unfold constructor, config_bufferSize. simpl.
    rewrite Hcfg. reflexivity. }
  split.
  - split; [lia|].
    induction ops as [|o ops IH] using rev_ind.
    + unfold run. simpl. rewrite getBuffer_read_contents, constructor_contents. simpl. lia.
    + rewrite getBuffer_read_contents in *. rewrite run_snoc, step_contents, Hsize.
      destruct o; try exact IH.
      * apply push_evict_length; assumption.
      * simpl. lia.
  - intros Hnc.
    assert (Hlast : getBuffer_read (run ops (constructor config h0))
                    = last_n (Z.to_nat k) (published ops)).
    { induction ops as [|o ops IH] using rev_ind.
      - unfold run. simpl. rewrite getBuffer_read_contents, constructor_contents. reflexivity.
      - rewrite forallb_app in Hnc. apply andb_true_iff in Hnc as [Hnc Ho].
        specialize (IH Hnc). rewrite getBuffer_read_contents in *.
        rewrite run_snoc, step_contents, Hsize, published_snoc.
        destruct o; simpl in Ho; try discriminate; rewrite ?app_nil_r; try exact IH.
        rewrite IH. rewrite <- (Z2Nat.id k) at 1 by lia.
        apply push_evict_last_n. lia. }
    split; [exact Hlast|].
    intros HN. rewrite Hlast. unfold last_n. split; [|reflexivity].
    rewrite length_drop. lia.
Qed.

(** A stream of capacity 2 after three publishes holds the last two. *)
Lemma C1_bounded_buffer_witness :
  let s := run [Publish (VNum 1); Publish (VNum 2); Publish (VNum 3)]
               (constructor (VObj 0 [("bufferSize", VNum 2)]) empty_heap) in
  0 <= length (getBuffer_read s) <= 2
  /\ getBuffer_read s = [VNum 2; VNum 3].
Proof.
  pose proof (C1_bounded_buffer 2 (VObj 0 [("bufferSize", VNum 2)]) empty_heap
    [Publish (VNum 1); Publish (VNum 2); Publish (VNum 3)]
    ltac:(lia) eq_refl) as H.
  cbv zeta in H. destruct H as [Hb Hnc].
  destruct (Hnc eq_refl) as [_ Hl].
  intros s. split; [exact Hb|].
  destruct Hl as [_ Hl]; [vm_compute; lia|].
  etransitivity; [exact Hl | reflexivity].
Defined.

(** C2. subscribe replays before it returns, under the effective policy
    (the override when one is supplied, else the stream default) and through
    the filter: under 'last' the subscription receives the most recent
    buffered value, once, when it passes the filter, and nothing when the
    buffer is empty; under 'all' it receives every buffered value that
    passes the filter, oldest to newest.  The callback is assumed not to
    throw on the values replayed. *)
Theorem C2_subscribe_replay (cb : Callback) (filter : option (value -> value))
    (rp : value) (s : St) :
  let id := length (closures (heap s)) in
  let c := {| callback := cb; sub_filter := filter;
              sub_replayPolicy := rp; paused := false |} in
  let policy := effective_policy rp (replayPolicy (this s)) in
  let r := subscribe cb filter rp s in
  (forall v, v ∈ contents s -> passes c v = true -> cb_throws cb v = false) ->
  (policy = VStr "last" ->
     r.1 = Ok id
     /\ observers (this r.2) = observers (this s) ++ [id]
     /\ delivered (heap r.2) =
          delivered (heap s) ++
          match last (contents s) with
          | Some v => if passes c v then [(id, v)] else []
          | None => []
          end)
  /\ (policy = VStr "all" ->
     r.1 = Ok id
     /\ observers (this r.2) = observers (this s) ++ [id]
     /\ delivered (heap r.2) =
          delivered (heap s) ++ map (pair id) (List.filter (passes c) (contents s))).
Proof.
  intros id c policy r Hq.
  destruct (subscribe_deliver cb filter rp s) as (H1 & H2 & _ & H4).
  fold id c policy r in H1, H2, H4.
  assert (Hw : forall vs, (forall v, v ∈ vs -> v ∈ contents s) ->
             walk (closures (heap s) ++ [c]) (map (pair id) vs)
             = (map (pair id) (List.filter (passes c) vs), false)).
  { intros vs Hvs. apply walk_single.
    - apply list_lookup_middle. reflexivity.
    - reflexivity.
    - intros v Hv. apply Hq, Hvs, Hv. }
  split; intros Hp; rewrite Hp in H1, H2; unfold replay_source in H1, H2; simpl in H1, H2.
  - assert (Hsub : forall v, v ∈ slice_last (contents s) -> v ∈ contents s).
    { intros v Hv. unfold slice_last in Hv. apply list_elem_of_lookup in Hv as [i Hi].
      rewrite lookup_drop in Hi. apply list_elem_of_lookup. eauto. }
    rewrite (Hw _ Hsub) in H1, H2. simpl in H1, H2. rewrite slice_last_last in H2.
    repeat split; try assumption. rewrite H2.
    destruct (last (contents s)) as [v|]; simpl; [|reflexivity].
    destruct (passes c v); reflexivity.
  - rewrite Hw in H1, H2 by auto. simpl in H1, H2. repeat split; assumption.
Qed.

(** A stream holding 1, 2, 3 under 'all'; a subscriber that overrides the
    policy with 'last' and filters nothing receives 3 alone. *)
Lemma C2_subscribe_replay_witness :
  let cb := {| cb_text := "log"; cb_throws := fun _ => false |} in
  let s := run [Publish (VNum 1); Publish (VNum 2); Publish (VNum 3)]
               (constructor (VObj 0 [("bufferSize", VNum 5); ("replayPolicy", VStr "all")])
                            empty_heap) in
  let r := subscribe cb None (VStr "last") s in
  r.1 = Ok 0 /\ delivered (heap r.2) = [(0, VNum 3)].
Proof.
  intros cb s r.
  destruct (C2_subscribe_replay cb None (VStr "last") s) as [H _].
  - intros v _ _. reflexivity.
  - destruct H as (H1 & _ & H3); [reflexivity|]. split; [exact H1 | exact H3].
Defined.

(** C3. A publish in which no notified callback throws delivers the value
    synchronously, in subscription-insertion order, to exactly the
    subscriptions that are not paused and whose filter, if present, accepts
    the value: a subscription receives v iff it is not paused and its filter
    accepts v. *)
Theorem C3_publish_delivery (v : value) (s : St) :
  let cs := closures (heap s) in
  let r := setState v s in
  (forall o, o ∈ observers (this s) -> eligible cs v o = true -> throws_on cs v o = false) ->
  exists received,
    r.1 = Ok tt
    /\ delivered (heap r.2) = delivered (heap s) ++ received
    /\ received = map (fun o => (o, v)) (List.filter (eligible cs v) (observers (this s)))
    /\ (forall id c, cs !! id = Some c -> id ∈ observers (this s) ->
          ((id, v) ∈ received <-> paused c = false /\ passes c v = true)).
Proof.
  intros cs r Hq. destruct (setState_quiet v s Hq) as (H1 & H2 & _ & _).
  eexists. split; [exact H1|]. split; [exact H2|]. split; [reflexivity|].
  intros id c Hc Hin. rewrite list_elem_of_fmap. split.
  - intros (o & Heq & Ho). injection Heq as <-.
    apply list_elem_of_In, filter_In in Ho as [_ He].
    unfold eligible in He. fold cs in He. rewrite Hc in He.
    apply andb_true_iff in He as [Hp Hf]. apply negb_true_iff in Hp. auto.
  - intros [Hp Hf]. exists id. split; [reflexivity|].
    apply list_elem_of_In, filter_In. split; [apply list_elem_of_In, Hin|].
    unfold eligible. fold cs. rewrite Hc, Hp, Hf. reflexivity.
Qed.

(** Three subscribers: one that filters on v > 10, one paused, one plain.
    Publishing 5 reaches the plain one only. *)
Lemma C3_publish_delivery_witness :
  let cb := {| cb_text := "log"; cb_throws := fun _ => false |} in
  let big := fun v => match v with VNum n => VBool (Z.ltb 10 n) | _ => VBool false end in
  let s := run [Subscribe cb (Some big) VUndefined; Subscribe cb None VUndefined;
                Pause 1; Subscribe cb None VUndefined]
               (constructor VUndefined empty_heap) in
  let r := setState (VNum 5) s in
  r.1 = Ok tt /\ delivered (heap r.2) = [(2, VNum 5)].
Proof.
  intros cb big s r.
  destruct (C3_publish_delivery (VNum 5) s) as (received & H1 & H2 & H3 & _).
  - intros o _ _. unfold throws_on.
    destruct (closures (heap s) !! o) as [c|] eqn:Hc; [|reflexivity].
    apply list_elem_of_lookup_2 in Hc. vm_compute in Hc.
    repeat (apply elem_of_cons in Hc as [->|Hc]; [reflexivity|]). inversion Hc.
  - split; [exact H1|]. etransitivity; [exact H2|]. rewrite H3. reflexivity.
Defined.

(** C5. When a callback throws during the delivery pass of a publish, the
    error leaves publish, the subscriptions later in the pass are not
    notified of the value (the pass is fail-fast), and the buffer already
    holds the value. *)
Theorem C5_fail_fast (v : value) (s : St) (before after : list nat)
    (id : nat) (c : Subscription) :
  let cs := closures (heap s) in
  let r := setState v s in
  observers (this s) = before ++ id :: after ->
  cs !! id = Some c -> paused c = false -> passes c v = true ->
  cb_throws (callback c) v = true ->
  (forall o, o ∈ before -> eligible cs v o = true -> throws_on cs v o = false) ->
  (0 < bufferSize (this s))%Z ->
  exists received,
    r.1 = Throw CallbackError
    /\ delivered (heap r.2) = delivered (heap s) ++ received
    /\ received = map (fun o => (o, v)) (List.filter (eligible cs v) before) ++ [(id, v)]
    /\ (forall o, o ∈ after -> o ∉ before -> o <> id -> (o, v) ∉ received)
    /\ contents r.2 = push_evict (bufferSize (this s)) (contents s) v
    /\ last (contents r.2) = Some v.
Proof.
  intros cs r Hobs Hc Hp Hf Ht Hq Hk.
  destruct (setState_deliver v s) as (H1 & H2 & _ & _). fold cs r in H1, H2.
  rewrite Hobs, map_app, walk_app in H1, H2.
  rewrite walk_quiet in H1, H2.
  2,3: intros o v' Hin; apply list_elem_of_fmap in Hin as (o' & Heq & Ho);
       injection Heq as -> ->; apply Hq; exact Ho.
  simpl in H1, H2. unfold eligible, throws_on in H1, H2. fold cs in H1, H2.
  rewrite Hc, Hp, Hf, Ht in H1, H2. simpl in H1, H2.
  rewrite (filter_map_calls (eligible cs)) in H2.
  destruct (setState_contents v s) as [Hb _]. fold r in Hb.
  eexists. split; [exact H1|]. split; [exact H2|]. split; [reflexivity|].
  split; [|split; [exact Hb|]].
  - intros o Ha Hnb Hne Hin. apply elem_of_app in Hin as [Hin|Hin].
    + apply list_elem_of_fmap in Hin as (o' & Heq & Ho). injection Heq as <-.
      apply list_elem_of_In, filter_In in Ho as [Ho _]. apply Hnb, list_elem_of_In, Ho.
    + apply list_elem_of_singleton in Hin. injection Hin as ->. apply Hne. reflexivity.
  - rewrite Hb. unfold push_evict.
    destruct (Z.ltb_spec (bufferSize (this s)) (Z.of_nat (length (contents s ++ [v]))))
      as [Hlt|Hge]; [|apply last_snoc].
    destruct (contents s) as [|x l]; simpl in Hlt; [lia|]. apply last_snoc.
Qed.

(** Two subscribers, the first one throws on every value: the second one is
    not notified, publish throws, and the buffer holds the value. *)
Lemma C5_fail_fast_witness :
  let bad := {| cb_text := "bad"; cb_throws := fun _ => true |} in
  let good := {| cb_text := "good"; cb_throws := fun _ => false |} in
  let s := run [Subscribe bad None VUndefined; Subscribe good None VUndefined]
               (constructor VUndefined empty_heap) in
  let r := setState (VNum 7) s in
  r.1 = Throw CallbackError
  /\ delivered (heap r.2) = [(0, VNum 7)]
  /\ contents r.2 = [VNum 7].
Proof.
  intros bad good s r.
  destruct (C5_fail_fast (VNum 7) s [] [1] 0
              {| callback := bad; sub_filter := None;
                 sub_replayPolicy := VUndefined; paused := false |})
    as (received & H1 & H2 & H3 & _ & H5 & _);
    try reflexivity.
  - intros o Ho. inversion Ho.
  - split; [exact H1|]. split.
    + etransitivity; [exact H2|]. rewrite H3. reflexivity.
    + etransitivity; [exact H5|]. reflexivity.
Defined.

(** C6. While a subscription is paused no published value is delivered
    live to it.  resume() sets paused = false and, before it returns, runs
    the replay of subscribe time on the buffer as it is now, under the
    subscription's effective policy and through its filter; afterwards a
    publish reaches the subscription again. *)
Theorem C6_pause_resume (id : nat) (c : Subscription) (s : St) (vs : list value) :
  let s1 := run (map Publish vs) s in
  let r := resume id s1 in
  let policy := effective_policy (sub_replayPolicy c) (replayPolicy (this s1)) in
  let replayed := List.filter (passes c) (replay_source policy (contents s1)) in
  closures (heap s) !! id = Some c -> paused c = true ->
  id ∈ observers (this s) ->
  (forall v, v ∈ replayed -> cb_throws (callback c) v = false) ->
  (exists live, delivered (heap s1) = delivered (heap s) ++ live
                /\ forall v, (id, v) ∉ live)
  /\ r.1 = Ok tt
  /\ closures (heap r.2) !! id = Some (set_paused false c)
  /\ delivered (heap r.2) = delivered (heap s1) ++ map (pair id) replayed
  /\ (forall v,
        (forall o, o ∈ observers (this r.2) ->
                   eligible (closures (heap r.2)) v o = true ->
                   throws_on (closures (heap r.2)) v o = false) ->
        exists received,
          (setState v r.2).1 = Ok tt
          /\ delivered (heap (setState v r.2).2) = delivered (heap r.2) ++ received
          /\ ((id, v) ∈ received <-> passes c v = true)).
Proof.
  intros s1 r policy replayed Hc Hp Hin Hq.
  destruct (publishes_while_paused id c vs s Hc Hp) as (Hlive & Hcs & Hos & Hrp).
  fold s1 in Hlive, Hcs, Hos, Hrp.
  assert (Hc1 : closures (heap s1) !! id = Some c) by (rewrite Hcs; exact Hc).
  destruct (resume_deliver id c s1 Hc1) as (H1 & H2 & H3 & H4 & H5).
  fold r policy in H1, H2, H3, H5.
  rewrite (walk_single _ id (set_paused false c)) in H1, H2; try assumption; try reflexivity.
  2,3: intros v Hv Hf; apply Hq; unfold replayed;
       apply list_elem_of_In, filter_In; split; [apply list_elem_of_In, Hv | exact Hf].
  simpl in H1, H2.
  split; [exact Hlive|]. split; [exact H1|]. split; [rewrite H3; exact H4|].
  split; [exact H2|].
  intros v Hv. destruct (setState_quiet v r.2 Hv) as (G1 & G2 & _ & _).
  eexists. split; [exact G1|]. split; [exact G2|].
  rewrite received_iff by (rewrite H5, Hos; exact Hin).
  unfold eligible. rewrite H3, H4. simpl. reflexivity.
Qed.

(** A paused subscriber under 'all' misses the live publishes of 1 and 2
    and gets both replayed by resume. *)
Lemma C6_pause_resume_witness :
  let cb := {| cb_text := "log"; cb_throws := fun _ => false |} in
  let s := run [Subscribe cb None VUndefined; Pause 0]
               (constructor (VObj 0 [("bufferSize", VNum 5); ("replayPolicy", VStr "all")])
                            empty_heap) in
  let s1 := run (map Publish [VNum 1; VNum 2]) s in
  delivered (heap s1) = []
  /\ (resume 0 s1).1 = Ok tt
  /\ delivered (heap (resume 0 s1).2) = [(0, VNum 1); (0, VNum 2)].
Proof.
  intros cb s s1.
  destruct (C6_pause_resume 0
              {| callback := cb; sub_filter := None;
                 sub_replayPolicy := VUndefined; paused := true |}
              s [VNum 1; VNum 2])
    as ((live & Hl & _) & H1 & _ & H3 & _); try reflexivity.
  - apply list_elem_of_In. left. reflexivity.
  - split; [reflexivity|]. split; [exact H1|].
    etransitivity; [exact H3|]. reflexivity.
Defined.

(** C10. A subscription whose replayPolicy option is supplied and is
    neither 'last' nor 'all' gets nothing replayed, at subscribe time and at
    resume time, while live publishes reach it as they reach any other
    subscription; and whenever an override is supplied the stream's own
    default policy has no influence on the replay. *)
Theorem C10_unknown_override (cb : Callback) (filter : option (value -> value))
    (rp : value) (s : St) :
  let id := length (closures (heap s)) in
  let c := {| callback := cb; sub_filter := filter;
              sub_replayPolicy := rp; paused := false |} in
  let r := subscribe cb filter rp s in
  rp <> VUndefined ->
  (rp <> VStr "last" -> rp <> VStr "all" ->
     r.1 = Ok id
     /\ delivered (heap r.2) = delivered (heap s)
     /\ (forall s' c', closures (heap s') !! id = Some c' -> sub_replayPolicy c' = rp ->
           (resume id s').1 = Ok tt
           /\ delivered (heap (resume id s').2) = delivered (heap s'))
     /\ (forall v,
           (forall o, o ∈ observers (this r.2) ->
                      eligible (closures (heap r.2)) v o = true ->
                      throws_on (closures (heap r.2)) v o = false) ->
           exists received,
             (setState v r.2).1 = Ok tt
             /\ delivered (heap (setState v r.2).2) = delivered (heap r.2) ++ received
             /\ ((id, v) ∈ received <-> passes c v = true)))
  /\ (forall p,
       let r' := subscribe cb filter rp (with_this (set_replayPolicy p) s) in
       r'.1 = r.1 /\ delivered (heap r'.2) = delivered (heap r.2)).
Proof.
  intros id c r Hu.
  assert (Heff : forall sp, effective_policy rp sp = rp).
  { intros sp. destruct rp; try reflexivity. contradiction. }
  destruct (subscribe_deliver cb filter rp s) as (H1 & H2 & H3 & H4).
  fold id c r in H1, H2, H3, H4. rewrite Heff in H1, H2.
  split.
  - intros Hl Ha.
    assert (Hsrc : forall buf, replay_source rp buf = []).
    { intros buf. unfold replay_source.
      destruct rp as [| | | |p|]; try reflexivity. simpl.
      destruct (String.eqb_spec p "last") as [->|_]; [contradiction|].
      destruct (String.eqb_spec p "all") as [->|_]; [contradiction|]. reflexivity. }
    rewrite Hsrc in H1, H2. simpl in H1, H2. rewrite app_nil_r in H2.
    split; [exact H1|]. split; [exact H2|]. split.
    + intros s' c' Hc' Hrp.
      destruct (resume_deliver id c' s' Hc') as (G1 & G2 & _).
      rewrite Hrp, Heff, Hsrc in G1, G2. simpl in G1, G2. rewrite app_nil_r in G2.
      split; assumption.
    + intros v Hv. destruct (setState_quiet v r.2 Hv) as (G1 & G2 & _ & _).
      eexists. split; [exact G1|]. split; [exact G2|].
      rewrite received_iff
        by (rewrite H4; apply elem_of_app; right; apply list_elem_of_singleton; reflexivity).
      unfold eligible. rewrite H3.
      replace ((closures (heap s) ++ [c]) !! id) with (Some c)
        by (symmetry; apply list_lookup_middle; reflexivity).
      simpl. reflexivity.
  - intros p r'.
    destruct (subscribe_deliver cb filter rp (with_this (set_replayPolicy p) s))
      as (G1 & G2 & _ & _).
    fold r' in G1, G2. rewrite Heff in G1, G2.
    change (contents (with_this (set_replayPolicy p) s)) with (contents s) in G1, G2.
    simpl in G1, G2. fold id c in G1, G2.
    split; [rewrite G1, H1 | rewrite G2, H2]; reflexivity.
Qed.

(** A stream holding 1 under 'all'; a subscriber with the override 'latest'
    receives nothing at subscribe time, nothing at resume time, and then the
    live publish of 2. *)
Lemma C10_unknown_override_witness :
  let cb := {| cb_text := "log"; cb_throws := fun _ => false |} in
  let s := run [Publish (VNum 1)]
               (constructor (VObj 0 [("replayPolicy", VStr "all")]) empty_heap) in
  let r := subscribe cb None (VStr "latest") s in
  r.1 = Ok 0
  /\ delivered (heap r.2) = []
  /\ delivered (heap (resume 0 r.2).2) = []
  /\ delivered (heap (setState (VNum 2) (resume 0 r.2).2).2) = [(0, VNum 2)].
Proof.
  intros cb s r.
  destruct (C10_unknown_override cb None (VStr "latest") s) as [H _];
    [discriminate|].
  destruct H as (H1 & H2 & H3 & _); [discriminate | discriminate |].
  split; [exact H1|]. split; [exact H2|]. split; [|reflexivity].
  destruct (H3 r.2 {| callback := cb; sub_filter := None;
                      sub_replayPolicy := VStr "latest"; paused := false |})
    as [_ G]; [reflexivity | reflexivity |].
  etransitivity; [exact G|]. exact H2.
Defined.

(** C4. What the code does on a handle whose subscription was removed:
    resume() replays the buffer to the callback.  A subscriber receives 1
    live, is removed by unsubscribe() (or by unsubscribeAll()), and receives
    1 a second time when resume() is called on its handle. *)
Theorem C4_resume_after_removal_delivers :
  let cb := {| cb_text := "log"; cb_throws := fun _ => false |} in
  let s0 := run [Subscribe cb None VUndefined; Publish (VNum 1)]
                (constructor VUndefined empty_heap) in
  let s1 := (unsubscribe 0 s0).2 in
  let s2 := (unsubscribeAll s0).2 in
  delivered (heap s0) = [(0, VNum 1)]
  /\ observers (this s1) = []
  /\ delivered (heap (resume 0 s1).2) = [(0, VNum 1); (0, VNum 1)]
  /\ observers (this s2) = []
  /\ delivered (heap (resume 0 s2).2) = [(0, VNum 1); (0, VNum 1)].
Proof. repeat split. Qed.

(** C9, as stated, fails: the caller pushes 99 onto the array getBuffer()
    returned and the stream's buffer, of capacity 1, holds two values. *)
Lemma C9_getBuffer_snapshot_counterexample :
  let s := run [Publish (VNum 1)] (constructor VUndefined empty_heap) in
  exists a, getBuffer s = (Ok a, s)
    /\ contents s = [VNum 1]
    /\ contents (caller_mutates a (fun l => l ++ [VNum 99]) s).2 = [VNum 1; VNum 99]
    /\ contents (caller_mutates a (fun l => l ++ [VNum 99]) s).2 <> contents s.
Proof.
  simpl. eexists. split; [reflexivity|]. split; [reflexivity|].
  split; [reflexivity|]. discriminate.
Qed.

(** C9, amended. getBuffer() changes nothing and returns the array
    this.buffer itself: what is read from it is the buffer contents, oldest
    first, and every mutation the caller makes of it is a mutation of the
    stream's buffer. *)
Theorem C9_getBuffer_alias (s : St) (f : list value -> list value) :
  getBuffer s = (Ok (buffer (this s)), s)
  /\ getBuffer_read s = contents s
  /\ contents (caller_mutates (buffer (this s)) f s).2 = f (contents s).
Proof.
  split; [reflexivity|]. split; [reflexivity|].
  unfold caller_mutates, modify, contents, with_heap, array_mutate, array_write, array_read.
  simpl. apply lookup_total_insert_eq.
Qed.

(** C8. Registry.setState(channel, value) fails with an invalid-argument
    error iff the channel is missing or empty or the value is undefined;
    the check precedes every access to the store, so that on such a failure
    nothing has changed: no channel was created, no stream touched.  Every
    other value, null, 0, false and the empty string among them, is
    published: the channel exists afterwards and the call can only fail
    with what a subscriber callback threw. *)
Theorem C8_setState_validation (self : PubSubMFE.t) (channel : option string)
    (newState : value) (w : PubSubMFE.World) :
  let r := PubSubMFE.setState self channel newState w in
  let rejected := PubSubMFE.no_channel channel = true \/ newState = VUndefined in
  ((exists e, r.1 = Throw e /\ invalid_argument e = true) <-> rejected)
  /\ (rejected -> r.2 = w)
  /\ (~ rejected ->
      PubSubMFE.Map_has (PubSubMFE.store self) (PubSubMFE.channel_key channel) r.2 = true
      /\ forall e, r.1 = Throw e -> e = CallbackError)
  /\ (PubSubMFE.no_channel channel = false ->
      In newState [VNull; VNum 0; VBool false; VStr ""] -> ~ rejected).
Proof.
  intros r rejected. unfold r, rejected, PubSubMFE.setState.
  destruct (PubSubMFE.no_channel channel) eqn:Hn.
  { split; [|split; [|split]].
    - split; [left; reflexivity|]. intros _. exists ChannelRequired. split; reflexivity.
    - reflexivity.
    - intros H. exfalso. apply H. left. reflexivity.
    - discriminate. }
  destruct (strict_eq newState VUndefined) eqn:Hs.
  { apply RegistryFacts.strict_eq_undefined in Hs. subst newState.
    split; [|split; [|split]].
    - split; [right; reflexivity|]. intros _. exists NewStateRequired. split; reflexivity.
    - reflexivity.
    - intros H. exfalso. apply H. right. reflexivity.
    - intros _ Hin. simpl in Hin. repeat destruct Hin as [Hin|Hin]; try discriminate.
      destruct Hin. }
  assert (Hne : newState <> VUndefined).
  { intros ->. discriminate. }
  rewrite bind_run.
  destruct (RegistryFacts.generateObservable_has self (PubSubMFE.channel_key channel) w)
    as (w' & -> & Hh).
  destruct (RegistryFacts.on_stream_has _ _ (DataObservable.setState newState) w' Hh)
    as (d & _ & Hout & Hh').
  assert (Hthrow : forall e,
    (PubSubMFE.on_stream (PubSubMFE.store self) (PubSubMFE.channel_key channel)
       (DataObservable.setState newState) w').1 = Throw e -> e = CallbackError).
  { intros e He. rewrite Hout in He. exact (RegistryFacts.stream_setState_throws _ _ _ He). }
  split; [|split; [|split]].
  - split.
    + intros (e & He & Hinv). apply Hthrow in He. subst e. discriminate.
    + intros [H|H]; [discriminate | contradiction].
  - intros [H|H]; [discriminate | contradiction].
  - intros _. split; [exact Hh' | exact Hthrow].
  - intros _ _ [H|H]; [discriminate | contradiction].
Qed.

(** C7, as stated, fails.  The configuration the constructor compares
    with is the one of the first instance ever constructed, here A, which
    was given a backing map of its own.  B is the first instance that
    populates the shared "default" channel; C brings B's configuration and
    is refused; D brings another one, A's, and is accepted. *)
Lemma C7_first_populating_instance_counterexample :
  let cfg := fun (r : nat) (n : Z) => VObj r [("bufferSize", VNum n)] in
  let pA := {| PubSubMFE.storeMap := PubSubMFE.StoreMap 0;
               PubSubMFE.ObservableConfig := cfg 1 5%Z |} in
  let pB := {| PubSubMFE.storeMap := PubSubMFE.StoreAbsent;
               PubSubMFE.ObservableConfig := cfg 2 3%Z |} in
  let pC := {| PubSubMFE.storeMap := PubSubMFE.StoreAbsent;
               PubSubMFE.ObservableConfig := cfg 3 3%Z |} in
  let pD := {| PubSubMFE.storeMap := PubSubMFE.StoreAbsent;
               PubSubMFE.ObservableConfig := cfg 4 5%Z |} in
  let w0 := (PubSubMFE.new_Map PubSubMFE.initial).2 in
  let rA := PubSubMFE.constructor pA w0 in
  let rB := PubSubMFE.constructor pB rA.2 in
  let rC := PubSubMFE.constructor pC rB.2 in
  let rD := PubSubMFE.constructor pD rB.2 in
  rA.1 = Ok {| PubSubMFE.store := 0; PubSubMFE.config := cfg 1 5%Z |}
  /\ PubSubMFE.static_store_default rA.2 = None
  /\ rB.1 = Ok {| PubSubMFE.store := 1; PubSubMFE.config := cfg 2 3%Z |}
  /\ PubSubMFE.static_store_default rB.2 = Some 1
  /\ PubSubMFE.Map_has 1 "default" rA.2 = false
  /\ PubSubMFE.Map_has 1 "default" rB.2 = true
  /\ PubSubMFE.deep_equal (cfg 2 3%Z) (cfg 3 3%Z)
  /\ rC.1 = Throw ConfigConflict
  /\ ~ PubSubMFE.deep_equal (cfg 2 3%Z) (cfg 4 5%Z)
  /\ rD.1 = Ok {| PubSubMFE.store := 1; PubSubMFE.config := cfg 4 5%Z |}.
Proof.
  cbv zeta.
  repeat match goal with |- _ /\ _ => split end; try (vm_compute; reflexivity).
  - split; [reflexivity | intros k; reflexivity].
  - intros [_ H]. specialize (H "bufferSize"). discriminate.
Qed.

(** C7, amended.  Once an instance is recorded as the first one of the
    process and the shared "default" channel exists, constructing an
    instance with no backing map succeeds with an absent or empty
    configuration, succeeds with a configuration deep-equal to the one the
    recorded first instance was given, and fails with the
    configuration-conflict error with any other configuration. *)
Theorem C7_config_guard (w : PubSubMFE.World) (fp : PubSubMFE.params) (m : nat)
    (c2 : value) :
  let r := PubSubMFE.constructor
             {| PubSubMFE.storeMap := PubSubMFE.StoreAbsent;
                PubSubMFE.ObservableConfig := c2 |} w in
  let c1 := PubSubMFE.ObservableConfig fp in
  PubSubMFE.firstInstanceParams w = Some fp ->
  PubSubMFE.static_store_default w = Some m ->
  PubSubMFE.Map_has m "default" w = true ->
  PubSubMFE.config_arg c1 = true ->
  PubSubMFE.config_arg c2 = true ->
  PubSubMFE.same_object c1 c2 ->
  (Object_keys c2 = [] -> exists inst, r.1 = Ok inst /\ PubSubMFE.store inst = m)
  /\ (Object_keys c2 <> [] ->
      (PubSubMFE.deep_equal c1 c2 ->
         r.1 = Ok {| PubSubMFE.store := m; PubSubMFE.config := c2 |})
      /\ (~ PubSubMFE.deep_equal c1 c2 -> r.1 = Throw ConfigConflict)).
Proof.
  intros r c1 Hf Hs Hh Hc1 Hc2 Hsame.
  pose proof (ConfigFacts.constructor_shared w fp m c2 Hf Hs Hh Hc2) as Hr.
  fold r c1 in Hr. rewrite Hr.
  destruct (Nat.eqb (length (Object_keys c2)) 0) eqn:Hk.
  { apply ConfigFacts.Object_keys_nil in Hk. split; [eauto | contradiction]. }
  assert (Hne : Object_keys c2 <> []).
  { intros H. apply ConfigFacts.Object_keys_nil in H. congruence. }
  split; [contradiction|]. intros _.
  assert (Hc2' : PubSubMFE.stream_config c2 = true).
  { destruct c2; try discriminate; try contradiction. exact Hc2. }
  destruct c1 as [| | | | |r1 p1] eqn:E1; try discriminate.
  - rewrite ConfigFacts.isEqual_undefined by assumption.
    split; [|reflexivity]. intros [Ht _].
    destruct c2; discriminate.
  - pose proof (ConfigFacts.isEqual_deep_equal (VObj r1 p1) c2 Hc1 Hc2' Hsame) as Hiff.
    destruct (PubSubMFE._isEqual (VObj r1 p1) c2).
    + split; [reflexivity|]. intros Hn. exfalso. apply Hn, Hiff. reflexivity.
    + split; [|reflexivity]. intros Hd. apply Hiff in Hd. discriminate.
Qed.

(** The first instance of a process, built with no backing map and the
    configuration bufferSize 5; a second one with the same configuration is
    accepted, one with bufferSize 3 is refused. *)
Lemma C7_config_guard_witness :
  let cfg := fun (r : nat) (n : Z) => VObj r [("bufferSize", VNum n)] in
  let p1 := {| PubSubMFE.storeMap := PubSubMFE.StoreAbsent;
               PubSubMFE.ObservableConfig := cfg 0 5%Z |} in
  let w1 := (PubSubMFE.constructor p1 PubSubMFE.initial).2 in
  (PubSubMFE.constructor
     {| PubSubMFE.storeMap := PubSubMFE.StoreAbsent;
        PubSubMFE.ObservableConfig := cfg 1 5%Z |} w1).1
  = Ok {| PubSubMFE.store := 0; PubSubMFE.config := cfg 1 5%Z |}
  /\ (PubSubMFE.constructor
        {| PubSubMFE.storeMap := PubSubMFE.StoreAbsent;
           PubSubMFE.ObservableConfig := cfg 2 3%Z |} w1).1
     = Throw ConfigConflict.
Proof.
  intros cfg p1 w1.
  assert (Hsame : forall r n, r <> 0 ->
            PubSubMFE.same_object (PubSubMFE.ObservableConfig p1) (cfg r n)).
  { intros r n Hr r' q1 q2 H1 H2. cbv in H1, H2. congruence. }
  split.
  - pose proof (C7_config_guard w1 p1 0 (cfg 1 5%Z)
                  eq_refl eq_refl eq_refl eq_refl eq_refl
                  (Hsame 1 5%Z ltac:(discriminate))) as [_ H].
    destruct H as [H _]; [discriminate|].
    apply H. split; [reflexivity | intros k; reflexivity].
  - pose proof (C7_config_guard w1 p1 0 (cfg 2 3%Z)
                  eq_refl eq_refl eq_refl eq_refl eq_refl
                  (Hsame 2 3%Z ltac:(discriminate))) as [_ H].
    destruct H as [_ H]; [discriminate|].
    apply H. intros [_ Hd]. specialize (Hd "bufferSize"). discriminate.
Defined.

(** Falsy values are published: on a fresh instance the channel "c" is
    created and holds them. *)
Lemma C8_setState_validation_witness :
  let w1 := (PubSubMFE.constructor
               {| PubSubMFE.storeMap := PubSubMFE.StoreAbsent;
                  PubSubMFE.ObservableConfig := VUndefined |} PubSubMFE.initial).2 in
  let self := {| PubSubMFE.store := 0; PubSubMFE.config := VObj 0 [] |} in
  (PubSubMFE.setState self (Some "c") VNull w1).1 = Ok tt
  /\ PubSubMFE.Map_has 0 "c" (PubSubMFE.setState self (Some "c") VNull w1).2 = true
  /\ (PubSubMFE.setState self (Some "") (VNum 1) w1).2 = w1
  /\ (PubSubMFE.setState self (Some "c") VUndefined w1).2 = w1.
Proof.
  intros w1 self.
  destruct (C8_setState_validation self (Some "c") VNull w1) as (_ & _ & H & Hf).
  destruct (C8_setState_validation self (Some "") (VNum 1) w1) as (_ & H1 & _).
  destruct (C8_setState_validation self (Some "c") VUndefined w1) as (_ & H2 & _).
  split; [reflexivity|]. split; [|split].
  - apply H, Hf; [reflexivity|]. left. reflexivity.
  - apply H1. left. reflexivity.
  - apply H2. right. reflexivity.
Defined.

End Claims.

(** * Further properties of the two classes *)

(** ** More facts on the stream's methods *)

Module StreamFacts.
Import DataObservable Delivery DeliveryFacts MethodFacts Frame Buffer Observation.

Ltac methods_stable :=
  unfold setState, subscribe, unsubscribe, pause, resume, unsubscribeAll,
    write_paused;
  unfold replay; unfold filteredObserver; unfold call; unfold observerState_set;
  repeat first [ stable_step
               | match goal with
                 | |- stable _ (match ?a with Some _ => _ | None => _ end) => destruct a
                 | |- stable _ (let _ := _ in _) => cbv zeta
                 end ].

Lemma setState_alloc v : stable alloc_view (setState v).
Proof. methods_stable. Qed.

Lemma subscribe_alloc cb f rp : stable alloc_view (subscribe cb f rp).
Proof. methods_stable. Qed.

Lemma unsubscribe_alloc id : stable alloc_view (unsubscribe id).
Proof. methods_stable. Qed.

Lemma pause_alloc id : stable alloc_view (pause id).
Proof. methods_stable. Qed.

Lemma resume_alloc id : stable alloc_view (resume id).
Proof. methods_stable. Qed.

Lemma unsubscribeAll_alloc : stable alloc_view unsubscribeAll.
Proof. methods_stable. Qed.






Lemma replay_closures id : stable closures_view (replay id).
Proof. methods_stable. Qed.

Lemma replay_observers id : stable (fun s => observers (this s)) (replay id).
Proof. methods_stable. Qed.

Lemma setState_closures v : stable closures_view (setState v).
Proof. methods_stable. Qed.

Lemma unsubscribe_closures id : stable closures_view (unsubscribe id).
Proof. methods_stable. Qed.

Lemma unsubscribe_trace id : stable (fun s => delivered (heap s)) (unsubscribe id).
Proof. methods_stable. Qed.

Lemma pause_observers id : stable (fun s => observers (this s)) (pause id).
Proof. methods_stable. Qed.

Lemma pause_trace id : stable (fun s => delivered (heap s)) (pause id).
Proof. methods_stable. Qed.

(** *** What each call does to the observers, the environments and the
    allocation *)

Lemma unsubscribe_run id s :
  unsubscribe id s =
  (Ok tt,
   match closures (heap s) !! id with
   | Some c =>
       {| this := set_observerState
                    (delete (cb_text (callback c)) (observerState (this s)))
                    (set_observers (keep_others id (observers (this s))) (this s));
          heap := heap s |}
   | None => s
   end).
Proof.
  unfold unsubscribe, bind, gets, modify. simpl.
  destruct (closures (heap s) !! id); reflexivity.
Qed.

Lemma keep_others_elem id os o : o ∈ keep_others id os <-> o ∈ os /\ o <> id.
Proof.
  unfold keep_others.
  rewrite list_elem_of_In, filter_In, negb_true_iff, Nat.eqb_neq, <- list_elem_of_In.
  reflexivity.
Qed.

Lemma keep_others_absent id os : id ∉ os -> keep_others id os = os.
Proof.
  induction os as [|o os IH]; intros H; simpl; [reflexivity|].
  destruct (Nat.eqb_spec o id) as [->|_]; simpl.
  - exfalso. apply H. left.
  - rewrite IH; [reflexivity|]. intros Hin. apply H. right. exact Hin.
Qed.

Lemma keep_others_split id before after :
  id ∉ before -> id ∉ after ->
  keep_others id (before ++ id :: after) = before ++ after.
Proof.
  intros Hb Ha. unfold keep_others. rewrite List.filter_app. simpl.
  rewrite Nat.eqb_refl. simpl.
  fold (keep_others id before). fold (keep_others id after).
  rewrite !keep_others_absent by assumption. reflexivity.
Qed.

Lemma keep_others_NoDup id os : NoDup os -> NoDup (keep_others id os).
Proof.
  induction 1 as [|o os Hn Hd IH]; simpl; [constructor|].
  destruct (negb (Nat.eqb o id)); [|exact IH].
  constructor; [|exact IH]. intros Hin. apply keep_others_elem in Hin as [Hin _].
  exact (Hn Hin).
Qed.

Lemma step_observers s o :
  observers (this (step s o)) =
  match o with
  | Subscribe _ _ _ => observers (this s) ++ [length (closures (heap s))]
  | Unsubscribe id =>
      match closures (heap s) !! id with
      | Some _ => keep_others id (observers (this s))
      | None => observers (this s)
      end
  | UnsubscribeAll => []
  | _ => observers (this s)
  end.
Proof.
  destruct o; cbn [step].
  - apply setState_deliver.
  - apply subscribe_deliver.
  - rewrite unsubscribe_run. simpl. destruct (closures (heap s) !! id); reflexivity.
  - apply pause_observers.
  - rewrite resume_run. exact (replay_observers id (unpaused id s)).
  - reflexivity.
  - reflexivity.
Qed.

Lemma step_closures_length s o :
  length (closures (heap (step s o))) =
  length (closures (heap s)) + (if is_subscribe o then 1 else 0).
Proof.
  destruct o as [v|cb f rp|id|id|id| |]; cbn [step is_subscribe]; rewrite ?Nat.add_0_r.
  - f_equal. apply setState_closures.
  - destruct (subscribe_deliver cb f rp s) as (_ & _ & H & _).
    simpl in H. rewrite H, length_app. reflexivity.
  - f_equal. apply unsubscribe_closures.
  - unfold pause, write_paused, modify. simpl. apply length_alter.
  - rewrite resume_run.
    pose proof (replay_closures id (unpaused id s)) as H. unfold closures_view in H.
    rewrite H. simpl. apply length_alter.
  - reflexivity.
  - reflexivity.
Qed.

Lemma step_alloc s o :
  alloc_view (step s o) =
  match o with
  | ClearBuffer => (next_loc (heap s), S (next_loc (heap s)))
  | _ => alloc_view s
  end.
Proof.
  destruct o; cbn [step].
  - apply setState_alloc.
  - apply subscribe_alloc.
  - apply unsubscribe_alloc.
  - apply pause_alloc.
  - apply resume_alloc.
  - reflexivity.
  - apply unsubscribeAll_alloc.
Qed.

Lemma step_well_formed s o : well_formed s -> well_formed (step s o).
Proof.
  intros (Hnd & Hlt & Hb). unfold well_formed.
  rewrite step_observers, step_closures_length.
  pose proof (step_alloc s o) as Ha. unfold alloc_view in Ha.
  assert (Hbuf : buffer (this (step s o)) < next_loc (heap (step s o))).
  { pose proof (f_equal fst Ha) as H1. pose proof (f_equal snd Ha) as H2.
    destruct o; cbn [fst snd alloc_view] in H1, H2; rewrite H1, H2; lia. }
  split; [|split; [|exact Hbuf]].
  - destruct o; try exact Hnd.
    + apply NoDup_app. split; [exact Hnd|]. split; [|apply NoDup_singleton].
      intros x Hx Hx'. apply list_elem_of_singleton in Hx'. subst x.
      apply Hlt in Hx. lia.
    + destruct (closures (heap s) !! id); [apply keep_others_NoDup|]; exact Hnd.
    + constructor.
  - intros x Hx. destruct o; cbn [is_subscribe]; try (apply Hlt in Hx; lia).
    + apply elem_of_app in Hx as [Hx|Hx]; [apply Hlt in Hx; lia|].
      apply list_elem_of_singleton in Hx. lia.
    + destruct (closures (heap s) !! id); [apply keep_others_elem in Hx as [Hx _]|];
        apply Hlt in Hx; lia.
    + inversion Hx.
Qed.

Lemma run_well_formed ops s : well_formed s -> well_formed (run ops s).
Proof.
  revert s. induction ops as [|o ops IH]; intros s H; [exact H|].
  apply (IH (step s o)), step_well_formed, H.
Qed.

Lemma constructor_well_formed config h : well_formed (constructor config h).
Proof.
  unfold well_formed, constructor. simpl. split; [constructor|].
  split; [intros o Ho; inversion Ho | lia].
Qed.

(** *** The configuration, the buffer and the other arrays *)



Lemma run_cons o ops s : run (o :: ops) s = run ops (step s o).
Proof. reflexivity. Qed.

(** The buffer of a stream of capacity [k > 0] that was empty and was not
    cleared. *)
Lemma run_contents_last_n (k : nat) ops s :
  0 < k -> bufferSize (this s) = Z.of_nat k -> contents s = [] ->
  forallb (fun o => negb (is_clear o)) ops = true ->
  contents (run ops s) = last_n k (published ops).
Proof.
  intros Hk Hs Hc. induction ops as [|o ops IH] using rev_ind; intros Hnc.
  - exact Hc.
  - rewrite forallb_app in Hnc. apply andb_true_iff in Hnc as [Hnc Ho].
    rewrite run_snoc, step_contents, run_bufferSize, Hs, published_snoc.
    destruct o; simpl in Ho; try discriminate; rewrite ?app_nil_r; try exact (IH Hnc).
    rewrite (IH Hnc). apply push_evict_last_n. exact Hk.
Qed.

(** The buffer of a stream of capacity [k <= 0]. *)
Lemma run_contents_nil ops s :
  (bufferSize (this s) <= 0)%Z -> contents s = [] -> contents (run ops s) = [].
Proof.
  intros Hs Hc. induction ops as [|o ops IH] using rev_ind; [exact Hc|].
  rewrite run_snoc, step_contents, run_bufferSize.
  destruct o; try exact IH; [|reflexivity].
  rewrite IH. unfold push_evict. simpl.
  destruct (Z.ltb_spec (bufferSize (this s)) (Z.of_nat 1)); [reflexivity | lia].
Qed.

Lemma setState_arrays_other v s a :
  a <> buffer (this s) ->
  array_read a (heap (setState v s).2) = array_read a (heap s).
Proof.
  intros Ha.
  destruct (setState_split v s) as (s2 & Hrun & _).
  assert (H2 : exists s2', setState v s =
             forEach (fun p => observerState_set filteredObserver_text (p : nat * value).2 ;;
                               filteredObserver p.1 p.2)
                     (map (fun o => (o, v)) (observers (this s))) s2'
             /\ array_read a (heap s2') = array_read a (heap s)).
  { unfold setState. rewrite bind_run. simpl.
    set (s1 := with_heap _ s). rewrite bind_run.
    assert (H1 : array_read a (heap s1) = array_read a (heap s)).
    { unfold s1, with_heap, array_mutate, array_write, array_read. simpl.
      apply lookup_total_insert_ne. congruence. }
    assert (Hb1 : buffer (this s1) = buffer (this s)) by reflexivity.
    assert (Ho1 : observers (this s1) = observers (this s)) by reflexivity.
    clearbody s1. rewrite bind_run. simpl.
    destruct (Z.ltb _ _); simpl; rewrite bind_run; simpl;
      eexists; (split; [rewrite forEach_map, ?Ho1; reflexivity|]).
    - unfold with_heap, array_mutate, array_write, array_read in *. simpl.
      rewrite lookup_total_insert_ne by congruence. exact H1.
    - exact H1. }
  destruct H2 as (s2' & Hrun' & Hread). rewrite Hrun'.
  pose proof (forEach_deliver
    (fun p => observerState_set filteredObserver_text p.2)
    (map (fun o => (o, v)) (observers (this s)))
    (fun p => observerState_set_silent _ _) s2') as H.
  simpl in H. destruct H as (_ & _ & _ & H4 & _).
  unfold array_read in *. rewrite H4. exact Hread.
Qed.

Lemma view_arrays s s' : buffer_view s' = buffer_view s -> arrays (heap s') = arrays (heap s).
Proof. unfold buffer_view. intros H. injection H as _ _ H. exact H. Qed.

(** An array other than the buffer, already allocated, is left alone. *)
Lemma step_arrays_other s o a :
  a <> buffer (this s) -> a < next_loc (heap s) ->
  array_read a (heap (step s o)) = array_read a (heap s).
Proof.
  intros Ha Hlt. destruct o; cbn [step].
  - apply setState_arrays_other, Ha.
  - unfold array_read. rewrite (view_arrays _ _ (subscribe_buffer _ _ _ s)). reflexivity.
  - unfold array_read. rewrite (view_arrays _ _ (unsubscribe_buffer _ s)). reflexivity.
  - unfold array_read. rewrite (view_arrays _ _ (pause_buffer _ s)). reflexivity.
  - unfold array_read. rewrite (view_arrays _ _ (resume_buffer _ s)). reflexivity.
  - unfold clearBuffer, modify, array_new, array_read. simpl.
    apply lookup_total_insert_ne. lia.
  - reflexivity.
Qed.

(** *** The values one subscription received *)

Lemma received_by_app id t1 t2 :
  received_by id (t1 ++ t2) = received_by id t1 ++ received_by id t2.
Proof. unfold received_by. apply omap_app. Qed.

Lemma received_by_pass id v (P : nat -> bool) (os : list nat) :
  NoDup os -> id ∈ os ->
  received_by id (map (fun o => (o, v)) (List.filter P os)) = if P id then [v] else [].
Proof.
  induction 1 as [|o os Hn Hd IH]; intros Hin; [inversion Hin|].
  assert (Hout : forall l : list nat, id ∉ l ->
            received_by id (map (fun o => (o, v)) (List.filter P l)) = []).
  { induction l as [|x l IHl]; intros Hx; [reflexivity|]. simpl.
    assert (Hne : x <> id) by (intros ->; apply Hx; left).
    assert (Hl : id ∉ l) by (intros H; apply Hx; right; exact H).
    destruct (P x); simpl; [|exact (IHl Hl)].
    apply Nat.eqb_neq in Hne. unfold received_by in *. simpl. rewrite Hne.
    exact (IHl Hl). }
  apply elem_of_cons in Hin as [->|Hin]; simpl.
  - destruct (P o); simpl.
    + unfold received_by at 1. simpl. rewrite Nat.eqb_refl.
      fold (received_by o (map (fun o => (o, v)) (List.filter P os))).
      rewrite Hout by exact Hn. reflexivity.
    + apply Hout, Hn.
  - assert (Hne : o <> id) by (intros ->; exact (Hn Hin)).
    apply Nat.eqb_neq in Hne.
    destruct (P o); simpl; [|exact (IH Hin)].
    unfold received_by at 1. simpl. rewrite Hne. exact (IH Hin).
Qed.

End StreamFacts.

(** ** The stream *)

Section StreamProperties.
  Import DataObservable Delivery DeliveryFacts MethodFacts Frame Buffer.
  Import Observation StreamFacts.

(** X1. subscribe pushes the observer before it replays: when the callback
    throws on the value replayed under 'last', subscribe throws and returns
    no handle, yet the subscription is registered, counted and not paused. *)
Theorem X1_subscribe_registers_before_replay (cb : Callback)
    (filter : option (value -> value)) (rp : value) (s : St) (v : value) :
  let id := length (closures (heap s)) in
  let c := {| callback := cb; sub_filter := filter;
              sub_replayPolicy := rp; paused := false |} in
  let r := subscribe cb filter rp s in
  effective_policy rp (replayPolicy (this s)) = VStr "last" ->
  last (contents s) = Some v ->
  passes c v = true ->
  cb_throws cb v = true ->
  r.1 = Throw CallbackError
  /\ delivered (heap r.2) = delivered (heap s) ++ [(id, v)]
  /\ observers (this r.2) = observers (this s) ++ [id]
  /\ closures (heap r.2) !! id = Some c
  /\ (getObserverCount r.2).1 = Ok (S (length (observers (this s)))).
Proof.
  intros id c r Hp Hl Hf Ht.
  destruct (subscribe_deliver cb filter rp s) as (H1 & H2 & H3 & H4).
  fold id c r in H1, H2, H3, H4.
  rewrite Hp in H1, H2. unfold replay_source in H1, H2. simpl in H1, H2.
  rewrite slice_last_last, Hl in H1, H2. simpl in H1, H2.
  unfold eligible, throws_on in H1, H2.
  replace ((closures (heap s) ++ [c]) !! id) with (Some c) in H1, H2
    by (symmetry; apply list_lookup_middle; reflexivity).
  simpl in H1, H2. fold (passes c v) in H1, H2. rewrite Hf, Ht in H1, H2.
  simpl in H1, H2.
  split; [exact H1|]. split; [exact H2|]. split; [exact H4|]. split.
  - rewrite H3. apply list_lookup_middle. reflexivity.
  - unfold getObserverCount, gets. simpl. rewrite H4, length_app. simpl.
    f_equal. lia.
Qed.

Lemma X1_subscribe_registers_before_replay_witness :
  let bad := {| cb_text := "bad"; cb_throws := fun _ => true |} in
  let s := run [Publish (VNum 1)] (constructor VUndefined empty_heap) in
  let r := subscribe bad None VUndefined s in
  r.1 = Throw CallbackError /\ observers (this r.2) = [0].
Proof.
  intros bad s r.
  pose proof (X1_subscribe_registers_before_replay bad None VUndefined s (VNum 1)
                eq_refl eq_refl eq_refl eq_refl) as (H1 & _ & H3 & _).
  split; [exact H1 | exact H3].
Defined.

(** X2. unsubscribe removes its own subscription and nothing else: the
    other observers keep their order, the environments, the buffer and the
    trace are untouched, and no later publish reaches the removed one. *)
Theorem X2_unsubscribe_removes_its_own (id : nat) (s : St) (before after : list nat) :
  let r := unsubscribe id s in
  well_formed s ->
  observers (this s) = before ++ id :: after ->
  r.1 = Ok tt
  /\ observers (this r.2) = before ++ after
  /\ (getObserverCount r.2).1 = Ok (length (observers (this s)) - 1)
  /\ closures (heap r.2) = closures (heap s)
  /\ delivered (heap r.2) = delivered (heap s)
  /\ contents r.2 = contents s
  /\ (forall v, exists received,
        delivered (heap (setState v r.2).2) = delivered (heap r.2) ++ received
        /\ forall v', (id, v') ∉ received).
Proof.
  intros r (Hnd & Hlt & _) Hobs.
  assert (Hin : id ∈ observers (this s)).
  { rewrite Hobs. apply elem_of_app. right. left. }
  destruct (lookup_lt_is_Some_2 _ _ (Hlt id Hin)) as [c Hc].
  rewrite Hobs in Hnd. apply NoDup_app in Hnd as (_ & Hba & Hn).
  apply NoDup_cons in Hn as [Ha _].
  assert (Hb : id ∉ before).
  { intros H. apply (Hba id H). left. }
  assert (Hr : observers (this r.2) = before ++ after).
  { unfold r. rewrite unsubscribe_run, Hc. simpl. rewrite Hobs.
    apply keep_others_split; assumption. }
  split; [unfold r; rewrite unsubscribe_run; reflexivity|].
  split; [exact Hr|].
  split.
  { unfold getObserverCount, gets. simpl. rewrite Hr, Hobs, !length_app. simpl.
    f_equal. lia. }
  split; [exact (unsubscribe_closures id s)|].
  split; [exact (unsubscribe_trace id s)|].
  split; [apply contents_of_view, unsubscribe_buffer|].
  intros v. apply Removal.removed_no_live_delivery. rewrite Hr.
  intros H. apply elem_of_app in H as [H|H]; [exact (Hb H) | exact (Ha H)].
Qed.

Lemma X2_unsubscribe_removes_its_own_witness :
  let cb := {| cb_text := "log"; cb_throws := fun _ => false |} in
  let s := run [Subscribe cb None VUndefined; Subscribe cb None VUndefined;
                Subscribe cb None VUndefined]
               (constructor VUndefined empty_heap) in
  observers (this (unsubscribe 1 s).2) = [0; 2].
Proof.
  intros cb s.
  assert (Hwf : well_formed s) by apply run_well_formed, constructor_well_formed.
  pose proof (X2_unsubscribe_removes_its_own 1 s [0] [2] Hwf eq_refl) as (_ & H & _).
  exact H.
Defined.

(** X3. unsubscribe is idempotent: a second call on the same handle
    returns and leaves the state of the stream as the first call left it. *)
Theorem X3_unsubscribe_idempotent (id : nat) (s : St) :
  (unsubscribe id s).1 = Ok tt
  /\ unsubscribe id (unsubscribe id s).2 = (Ok tt, (unsubscribe id s).2).
Proof.
  split; [rewrite unsubscribe_run; reflexivity|].
  rewrite (unsubscribe_run id s).
  destruct (closures (heap s) !! id) as [c|] eqn:Hc; cbn [snd];
    rewrite unsubscribe_run; cbn [heap this]; rewrite Hc; [|reflexivity].
  unfold set_observerState, set_observers, keep_others. simpl.
  rewrite Removal.filter_twice, delete_delete_eq. reflexivity.
Qed.

(** X4. In every state a stream reaches from its construction each active
    subscription is listed once in the delivery list and has its
    environment, getObserverCount is the length of that list, and it never
    exceeds the number of subscribe calls made. *)
Theorem X4_observers_invariant (config : value) (h0 : Heap) (ops : list op) :
  let s := run ops (constructor config h0) in
  NoDup (observers (this s))
  /\ (forall o, o ∈ observers (this s) -> is_Some (closures (heap s) !! o))
  /\ (getObserverCount s).1 = Ok (length (observers (this s)))
  /\ length (observers (this s)) <= length (List.filter is_subscribe ops).
Proof.
  intros s.
  destruct (run_well_formed ops _ (constructor_well_formed config h0)) as (Hnd & Hlt & _).
  fold s in Hnd, Hlt.
  split; [exact Hnd|]. split; [|split; [reflexivity|]].
  - intros o Ho. apply lookup_lt_is_Some_2, Hlt, Ho.
  - unfold s. clear. induction ops as [|o ops IH] using rev_ind; [simpl; lia|].
    rewrite run_snoc, step_observers, List.filter_app, length_app.
    set (s := run ops (constructor config h0)) in *.
    destruct o; simpl; try lia.
    + rewrite length_app. simpl. lia.
    + destruct (closures (heap s) !! id); [|lia].
      pose proof (filter_length_le (fun o => negb (Nat.eqb o id)) (observers (this s))).
      unfold keep_others. lia.
Qed.

(** X5. clearBuffer empties the buffer and touches nothing else: the
    subscriptions stay, nothing is delivered, and until the next publish a
    subscribe or a resume replays nothing, whatever the policy. *)
Theorem X5_clearBuffer_forgets_history (s : St) (cb : Callback)
    (filter : option (value -> value)) (rp : value) :
  let s1 := (clearBuffer s).2 in
  let r := subscribe cb filter rp s1 in
  (clearBuffer s).1 = Ok tt
  /\ getBuffer_read s1 = []
  /\ observers (this s1) = observers (this s)
  /\ closures (heap s1) = closures (heap s)
  /\ delivered (heap s1) = delivered (heap s)
  /\ config_view s1 = config_view s
  /\ r.1 = Ok (length (closures (heap s)))
  /\ delivered (heap r.2) = delivered (heap s)
  /\ (forall id c, closures (heap s) !! id = Some c ->
        (resume id s1).1 = Ok tt
        /\ delivered (heap (resume id s1).2) = delivered (heap s)).
Proof.
  intros s1 r.
  assert (Hc : contents s1 = []) by apply clearBuffer_contents.
  assert (Hsrc : forall p, replay_source p (contents s1) = []).
  { intros p. rewrite Hc. unfold replay_source.
    destruct (strict_eq p (VStr "last")); [reflexivity|].
    destruct (strict_eq p (VStr "all")); reflexivity. }
  split; [reflexivity|]. split; [exact Hc|].
  split; [reflexivity|]. split; [reflexivity|]. split; [reflexivity|].
  split; [reflexivity|].
  destruct (subscribe_deliver cb filter rp s1) as (H1 & H2 & _).
  fold r in H1, H2. rewrite Hsrc in H1, H2. simpl in H1, H2.
  rewrite app_nil_r in H2.
  split; [exact H1|]. split; [exact H2|].
  intros id c Hid.
  destruct (resume_deliver id c s1 Hid) as (G1 & G2 & _).
  rewrite Hsrc in G1, G2. simpl in G1, G2. rewrite app_nil_r in G2.
  split; [exact G1 | exact G2].
Qed.

(** X6. clearBuffer gives the stream a new array: the array a caller got
    from getBuffer before the call keeps the old contents for ever, whatever
    is published or cleared afterwards, and is no longer the buffer. *)
Theorem X6_clearBuffer_detaches_old_array (s : St) (ops : list op) :
  let a := buffer (this s) in
  let s' := run ops (clearBuffer s).2 in
  buffer (this s) < next_loc (heap s) ->
  array_read a (heap s') = contents s
  /\ buffer (this s') <> a.
Proof.
  intros a s' Hlt.
  assert (H : array_read a (heap s') = contents s
              /\ a < buffer (this s') /\ buffer (this s') < next_loc (heap s')).
  { unfold s'. induction ops as [|o ops IH] using rev_ind.
    - unfold run, clearBuffer, modify, array_new, array_read, contents. simpl.
      split; [|fold a; lia].
      apply lookup_total_insert_ne. fold a. lia.
    - destruct IH as (I1 & I2 & I3). rewrite run_snoc.
      set (cur := run ops (clearBuffer s).2) in *.
      pose proof (step_alloc cur o) as Ha. unfold alloc_view in Ha.
      pose proof (f_equal fst Ha) as H1. pose proof (f_equal snd Ha) as H2.
      split.
      + rewrite step_arrays_other by lia. exact I1.
      + destruct o; cbn [fst snd] in H1, H2; rewrite H1, H2; lia. }
  destruct H as (H1 & H2 & _). split; [exact H1 | lia].
Qed.

Lemma X6_clearBuffer_detaches_old_array_witness :
  let s := run [Publish (VNum 1)] (constructor VUndefined empty_heap) in
  let s' := run [Publish (VNum 2); ClearBuffer; Publish (VNum 3)] (clearBuffer s).2 in
  array_read (buffer (this s)) (heap s') = [VNum 1].
Proof.
  intros s s'.
  pose proof (X6_clearBuffer_detaches_old_array s
                [Publish (VNum 2); ClearBuffer; Publish (VNum 3)]) as H.
  cbv zeta in H. destruct H as [H _]; [vm_compute; lia|].
  etransitivity; [exact H | reflexivity].
Defined.

(** X7. A stream created without a bufferSize has capacity 1: as long as it
    is not cleared its buffer is exactly the most recent published value. *)
Theorem X7_default_capacity_one (config : value) (h0 : Heap) (ops : list op) :
  let s := run ops (constructor config h0) in
  get_prop config "bufferSize" = VUndefined ->
  forallb (fun o => negb (is_clear o)) ops = true ->
  getBuffer_read s = match last (published ops) with
                     | Some v => [v]
                     | None => []
                     end.
Proof.
  intros s Hcfg Hnc. unfold s. rewrite getBuffer_read_contents.
  rewrite (run_contents_last_n 1); try assumption; try lia.
  - apply (slice_last_last (published ops)).
  - unfold constructor, config_bufferSize. simpl. rewrite Hcfg. reflexivity.
  - apply constructor_contents.
Qed.

Lemma X7_default_capacity_one_witness :
  getBuffer_read (run [Publish (VNum 1); Publish (VNum 2)]
                      (constructor (VObj 0 [("replayPolicy", VStr "all")]) empty_heap))
  = [VNum 2].
Proof.
  exact (X7_default_capacity_one (VObj 0 [("replayPolicy", VStr "all")]) empty_heap
           [Publish (VNum 1); Publish (VNum 2)] eq_refl eq_refl).
Defined.

(** X8. A stream created with a bufferSize of zero or less retains nothing:
    every publish shifts out the value it pushed, the buffer reads empty
    after every sequence of calls, and a subscribe replays nothing. *)
Theorem X8_nonpositive_capacity_retains_nothing (k : Z) (config : value) (h0 : Heap)
    (ops : list op) (cb : Callback) (filter : option (value -> value)) (rp : value) :
  let s := run ops (constructor config h0) in
  let r := subscribe cb filter rp s in
  (k <= 0)%Z ->
  get_prop config "bufferSize" = VNum k ->
  getBuffer_read s = []
  /\ r.1 = Ok (length (closures (heap s)))
  /\ delivered (heap r.2) = delivered (heap s).
Proof.
  intros s r Hk Hcfg.
  assert (Hc : contents s = []).
  { apply run_contents_nil; [|apply constructor_contents].
    unfold constructor, config_bufferSize. simpl. rewrite Hcfg. exact Hk. }
  split; [exact Hc|].
  destruct (subscribe_deliver cb filter rp s) as (H1 & H2 & _).
  fold r in H1, H2. rewrite Hc in H1, H2.
  assert (Hsrc : forall p, replay_source p [] = []).
  { intros p. unfold replay_source.
    destruct (strict_eq p (VStr "last")); [reflexivity|].
    destruct (strict_eq p (VStr "all")); reflexivity. }
  rewrite Hsrc in H1, H2. simpl in H1, H2. rewrite app_nil_r in H2.
  split; [exact H1 | exact H2].
Qed.

Lemma X8_nonpositive_capacity_retains_nothing_witness :
  getBuffer_read (run [Publish (VNum 1); Publish (VNum 2)]
                      (constructor (VObj 0 [("bufferSize", VNum 0)]) empty_heap))
  = [].
Proof.
  pose proof (X8_nonpositive_capacity_retains_nothing 0
                (VObj 0 [("bufferSize", VNum 0)]) empty_heap
                [Publish (VNum 1); Publish (VNum 2)]
                {| cb_text := "log"; cb_throws := fun _ => false |} None VUndefined
                ltac:(lia) eq_refl) as [H _].
  exact H.
Defined.

(** X9. resume does not look at the paused flag: called on a subscription
    that is not paused it replays the buffer to the callback once more,
    under the effective policy and through the filter, and leaves the
    subscription as it was. *)
Theorem X9_resume_replays_unpaused (id : nat) (c : Subscription) (s : St) :
  let r := resume id s in
  let policy := effective_policy (sub_replayPolicy c) (replayPolicy (this s)) in
  let replayed := List.filter (passes c) (replay_source policy (contents s)) in
  closures (heap s) !! id = Some c ->
  paused c = false ->
  (forall v, v ∈ replayed -> cb_throws (callback c) v = false) ->
  r.1 = Ok tt
  /\ delivered (heap r.2) = delivered (heap s) ++ map (pair id) replayed
  /\ closures (heap r.2) = closures (heap s)
  /\ observers (this r.2) = observers (this s)
  /\ contents r.2 = contents s.
Proof.
  intros r policy replayed Hc Hp Hq.
  destruct (resume_deliver id c s Hc) as (H1 & H2 & H3 & H4 & H5).
  fold r policy in H1, H2, H3, H5.
  rewrite (walk_single _ id (set_paused false c)) in H1, H2; try assumption; try reflexivity.
  2,3: intros v Hv Hf; apply Hq; unfold replayed;
       apply list_elem_of_In, filter_In; split; [apply list_elem_of_In, Hv | exact Hf].
  simpl in H1, H2.
  split; [exact H1|]. split; [exact H2|]. split; [|split; [exact H5|]].
  - rewrite H3. apply list_eq. intros i.
    destruct (decide (i = id)) as [->|Hne].
    + rewrite list_lookup_alter_eq, Hc. simpl. f_equal.
      destruct c; simpl in *. subst. reflexivity.
    + rewrite list_lookup_alter_ne by congruence. reflexivity.
  - apply contents_of_view, resume_buffer.
Qed.

Lemma X9_resume_replays_unpaused_witness :
  let cb := {| cb_text := "log"; cb_throws := fun _ => false |} in
  let s := run [Publish (VNum 1); Subscribe cb None VUndefined]
               (constructor VUndefined empty_heap) in
  delivered (heap s) = [(0, VNum 1)]
  /\ delivered (heap (resume 0 s).2) = [(0, VNum 1); (0, VNum 1)].
Proof.
  intros cb s. split; [reflexivity|].
  pose proof (X9_resume_replays_unpaused 0
                {| callback := cb; sub_filter := None;
                   sub_replayPolicy := VUndefined; paused := false |} s
                eq_refl eq_refl (fun _ _ => eq_refl)) as (_ & H & _).
  etransitivity; [exact H | reflexivity].
Defined.

(** X10. Live delivery loses nothing, repeats nothing and keeps the order:
    over a sequence of publishes in which no callback throws, an active
    subscription that is not paused receives exactly the published values
    its filter accepts, once each, in publish order. *)
Theorem X10_live_delivery_in_order (id : nat) (c : Subscription) (s : St)
    (vs : list value) :
  let s' := run (map Publish vs) s in
  NoDup (observers (this s)) ->
  id ∈ observers (this s) ->
  closures (heap s) !! id = Some c ->
  paused c = false ->
  (forall o v, o ∈ observers (this s) -> v ∈ vs ->
               eligible (closures (heap s)) v o = true ->
               throws_on (closures (heap s)) v o = false) ->
  exists live,
    delivered (heap s') = delivered (heap s) ++ live
    /\ received_by id live = List.filter (passes c) vs.
Proof.
  intros s' Hnd Hin Hc Hp. unfold s'. clear s'.
  revert s Hnd Hin Hc. induction vs as [|v vs IH]; intros s Hnd Hin Hc Hq.
  - exists []. rewrite app_nil_r. split; reflexivity.
  - destruct (setState_quiet v s) as (_ & H2 & H3 & H4).
    { intros o Ho. apply Hq; [exact Ho | left]. }
    destruct (IH (setState v s).2) as (live & Hl & Hr).
    + rewrite H4. exact Hnd.
    + rewrite H4. exact Hin.
    + rewrite H3. exact Hc.
    + rewrite H3, H4. intros o v' Ho Hv'. apply Hq; [exact Ho | right; exact Hv'].
    + eexists. split.
      * change (run (map Publish (v :: vs)) s)
          with (run (map Publish vs) (setState v s).2).
        rewrite Hl, H2, <- app_assoc. reflexivity.
      * rewrite received_by_app, Hr, (received_by_pass id v _ _ Hnd Hin).
        unfold eligible. rewrite Hc, Hp. simpl.
        destruct (passes c v); reflexivity.
Qed.

Lemma X10_live_delivery_in_order_witness :
  let cb := {| cb_text := "log"; cb_throws := fun _ => false |} in
  let small := fun v => match v with VNum n => VBool (Z.ltb n 30) | _ => VBool false end in
  let s := run [Subscribe cb None VUndefined; Subscribe cb (Some small) VUndefined]
               (constructor VUndefined empty_heap) in
  exists live,
    delivered (heap (run (map Publish [VNum 55; VNum 25; VNum 75; VNum 18]) s))
    = delivered (heap s) ++ live
    /\ received_by 1 live = [VNum 25; VNum 18].
Proof.
  intros cb small s.
  assert (Hwf : well_formed s) by apply run_well_formed, constructor_well_formed.
  destruct (X10_live_delivery_in_order 1
              {| callback := cb; sub_filter := Some small;
                 sub_replayPolicy := VUndefined; paused := false |} s
              [VNum 55; VNum 25; VNum 75; VNum 18]) as (live & H1 & H2).
  - exact (proj1 Hwf).
  - apply list_elem_of_In. right. left. reflexivity.
  - reflexivity.
  - reflexivity.
  - intros o v _ _ _. unfold throws_on.
    destruct (closures (heap s) !! o) as [c|] eqn:Hc; [|reflexivity].
    apply list_elem_of_lookup_2 in Hc. vm_compute in Hc.
    repeat (apply elem_of_cons in Hc as [->|Hc]; [reflexivity|]). inversion Hc.
  - exists live. split; [exact H1 | exact H2].
Defined.

(** X11. A publish calls no callback but those of the stream's own
    observers, each with the published value and only when the observer is
    not paused and its filter accepts the value; this holds whether or not
    a callback throws. *)
Theorem X11_publish_calls_own_observers (v : value) (s : St) :
  exists received,
    delivered (heap (setState v s).2) = delivered (heap s) ++ received
    /\ length received <= length (observers (this s))
    /\ forall o v', (o, v') ∈ received ->
          v' = v /\ o ∈ observers (this s)
          /\ eligible (closures (heap s)) v o = true.
Proof.
  destruct (setState_deliver v s) as (_ & H2 & _).
  eexists. split; [exact H2|]. split.
  - rewrite <- (length_map (fun o => (o, v)) (observers (this s))).
    generalize (map (fun o => (o, v)) (observers (this s))).
    induction l as [|[o x] l IH]; simpl; [lia|].
    destruct (eligible _ x o); [|lia].
    destruct (throws_on _ x o); simpl; [lia|].
    destruct (walk _ l). simpl in *. lia.
  - intros o v' Hin. apply walk_only_eligible in Hin as [Hin He].
    apply list_elem_of_fmap in Hin as (o' & Heq & Ho). injection Heq as -> ->.
    repeat split; assumption.
Qed.


(** X13. observerState is written and deleted but never read: the outcome
    of a publish, the callbacks it calls, the buffer and the observers are
    the same whatever observerState holds. *)
Theorem X13_observerState_is_write_only (m : gmap string value) (v : value) (s : St) :
  let s' := with_this (set_observerState m) s in
  (setState v s').1 = (setState v s).1
  /\ delivered (heap (setState v s').2) = delivered (heap (setState v s).2)
  /\ contents (setState v s').2 = contents (setState v s).2
  /\ observers (this (setState v s').2) = observers (this (setState v s).2)
  /\ closures (heap (setState v s').2) = closures (heap (setState v s).2).
Proof.
  intros s'.
  destruct (setState_deliver v s) as (H1 & H2 & H3 & H4).
  destruct (setState_deliver v s') as (G1 & G2 & G3 & G4).
  destruct (setState_contents v s) as [Hc _].
  destruct (setState_contents v s') as [Gc _].
  change (closures (heap s')) with (closures (heap s)) in *.
  change (observers (this s')) with (observers (this s)) in *.
  change (delivered (heap s')) with (delivered (heap s)) in *.
  change (contents s') with (contents s) in *.
  change (bufferSize (this s')) with (bufferSize (this s)) in *.
  rewrite G1, G2, G3, G4, Gc, H1, H2, H3, H4, Hc. repeat split.
Qed.

End StreamProperties.

(** ** More facts on the registry *)

Module RegistryMore.
Import PubSubMFE.

(** The stream stored under a key of a Map. *)
Lemma Map_has_lookup m key w :
  Map_has m key w = true <-> is_Some ((maps w !!! m) !! key).
Proof.
  unfold Map_has. destruct ((maps w !!! m) !! key); split; intros H;
    try reflexivity; try discriminate; eauto.
  destruct H. discriminate.
Qed.

Lemma generateObservable_run self key w :
  _generateObservable self key w =
  (Ok tt, if Map_has (store self) key w then w
          else (Map_set_new (store self) key (config self) w).2).
Proof.
  unfold _generateObservable. rewrite bind_run. simpl.
  destruct (Map_has (store self) key w); reflexivity.
Qed.

(** What [map.set(key, new DataObservable(config))] leaves in the store. *)
Lemma Map_set_new_lookup m key config w m' key' :
  (maps (Map_set_new m key config w).2 !!! m') !! key' =
  if decide (m' = m /\ key' = key)
  then Some (DataObservable.this (DataObservable.constructor config (heap w)))
  else (maps w !!! m') !! key'.
Proof.
  unfold Map_set_new, modify, set_maps, set_heap. simpl.
  destruct (decide (m' = m)) as [->|Hm].
  - rewrite lookup_total_insert_eq.
    destruct (decide (key' = key)) as [->|Hk].
    + rewrite lookup_insert_eq. rewrite decide_True by auto. reflexivity.
    + rewrite lookup_insert_ne by congruence.
      rewrite decide_False by (intros [_ H]; contradiction). reflexivity.
  - rewrite lookup_total_insert_ne by congruence.
    rewrite decide_False by (intros [H _]; contradiction). reflexivity.
Qed.

(** What a method run on a stored stream leaves in the world. *)
Lemma on_stream_run {A} m key (method : M DataObservable.St A) w d :
  (maps w !!! m) !! key = Some d ->
  let st := method {| DataObservable.this := d; DataObservable.heap := heap w |} in
  (on_stream m key method w).1 = st.1
  /\ heap (on_stream m key method w).2 = DataObservable.heap st.2
  /\ (maps (on_stream m key method w).2 !!! m) !! key = Some (DataObservable.this st.2)
  /\ static_store_default (on_stream m key method w).2 = static_store_default w
  /\ firstInstanceParams (on_stream m key method w).2 = firstInstanceParams w.
Proof.
  intros Hd. unfold on_stream. rewrite Hd. simpl.
  destruct (method _) as [r st]. simpl.
  rewrite lookup_total_insert_eq, lookup_insert_eq. repeat split.
Qed.

Lemma on_stream_other {A} m key (method : M DataObservable.St A) w m' key' :
  (m', key') <> (m, key) ->
  (maps (on_stream m key method w).2 !!! m') !! key' = (maps w !!! m') !! key'.
Proof.
  intros Hne. unfold on_stream.
  destruct ((maps w !!! m) !! key) as [d|]; [|reflexivity].
  destruct (method _) as [r st]. simpl.
  destruct (decide (m' = m)) as [->|Hm].
  - rewrite lookup_total_insert_eq, lookup_insert_ne; [reflexivity|]. congruence.
  - rewrite lookup_total_insert_ne by congruence. reflexivity.
Qed.

Lemma no_channel_key channel :
  no_channel channel = false -> channel = Some (channel_key channel).
Proof. destruct channel; [reflexivity | discriminate]. Qed.

Lemma push_evict_last (k : Z) l v : (0 < k)%Z -> last (push_evict k l v) = Some v.
Proof.
  intros Hk. unfold push_evict.
  destruct (Z.ltb_spec k (Z.of_nat (length (l ++ [v])))) as [Hlt|_]; [|apply last_snoc].
  destruct l as [|x l]; simpl in Hlt; [lia|]. apply last_snoc.
Qed.

(** [_generateObservable] followed by a method of the stream. *)
Lemma generate_then_method {A} self key (method : M DataObservable.St A) w :
  exists w0 d0,
    (_generateObservable self key ;; on_stream (store self) key method) w
    = on_stream (store self) key method w0
    /\ (maps w0 !!! store self) !! key = Some d0
    /\ (Map_has (store self) key w = true -> w0 = w)
    /\ (forall a, a < next_loc (heap w) ->
          array_read a (heap w0) = array_read a (heap w))
    /\ (forall m' key', (m', key') <> (store self, key) ->
          (maps w0 !!! m') !! key' = (maps w !!! m') !! key')
    /\ (Map_has (store self) key w = false ->
          DataObservable.buffer d0 = next_loc (heap w))
    /\ delivered (heap w0) = delivered (heap w)
    /\ closures (heap w0) = closures (heap w)
    /\ (Map_has (store self) key w = false -> DataObservable.observers d0 = []).
Proof.
  rewrite bind_run, generateObservable_run. cbn [fst snd].
  destruct (Map_has (store self) key w) eqn:Hh.
  - pose proof (proj1 (Map_has_lookup _ _ _) Hh) as [d0 Hd0].
    exists w, d0. repeat split; try reflexivity; try assumption; discriminate.
  - eexists _, _. split; [reflexivity|]. split.
    { rewrite Map_set_new_lookup, decide_True by auto. reflexivity. }
    split; [discriminate|]. split.
    { intros a Ha. unfold Map_set_new, modify, set_maps, set_heap, array_read.
      simpl. apply lookup_total_insert_ne. lia. }
    split.
    { intros m' key' Hne. rewrite Map_set_new_lookup.
      rewrite decide_False; [reflexivity|]. intros [-> ->]. contradiction. }
    repeat split.
Qed.

End RegistryMore.

(** ** The registry *)

Section RegistryProperties.
  Import RegistryMore.

(** X14. get creates the stream of a channel on first use, from the
    configuration of the instance it is called on, with an empty buffer and
    no observers, and leaves every other channel alone; on a channel that
    exists it changes nothing, whatever the configuration of the instance;
    without a channel name it throws and changes nothing. *)
Theorem X14_get_creates_once (self : PubSubMFE.t) (channel : option string)
    (w : PubSubMFE.World) :
  let r := PubSubMFE.get self channel w in
  let m := PubSubMFE.store self in
  let key := PubSubMFE.channel_key channel in
  (PubSubMFE.no_channel channel = true -> r = (Throw ChannelRequired, w))
  /\ (PubSubMFE.no_channel channel = false ->
      r.1 = Ok (m, key)
      /\ PubSubMFE.Map_has m key r.2 = true
      /\ PubSubMFE.get self channel r.2 = r
      /\ (PubSubMFE.Map_has m key w = true -> r.2 = w)
      /\ (PubSubMFE.Map_has m key w = false ->
          let st := DataObservable.constructor (PubSubMFE.config self) (PubSubMFE.heap w) in
          (PubSubMFE.maps r.2 !!! m) !! key = Some (DataObservable.this st)
          /\ PubSubMFE.heap r.2 = DataObservable.heap st
          /\ DataObservable.contents st = []
          /\ DataObservable.observers (DataObservable.this st) = []
          /\ forall m' key', (m', key') <> (m, key) ->
               (PubSubMFE.maps r.2 !!! m') !! key' = (PubSubMFE.maps w !!! m') !! key')).
Proof.
  intros r m key. unfold r, PubSubMFE.get.
  destruct (PubSubMFE.no_channel channel) eqn:Hn.
  { split; [reflexivity | discriminate]. }
  split; [discriminate|]. intros _.
  rewrite bind_run, generateObservable_run. fold m key. cbn [fst snd ret].
  destruct (PubSubMFE.Map_has m key w) eqn:Hh.
  - unfold ret. cbn [fst snd]. split; [reflexivity|]. split; [exact Hh|].
    split; [|split; [reflexivity | discriminate]].
    rewrite ?Hn, bind_run, generateObservable_run. fold m key. rewrite Hh. reflexivity.
  - set (w' := (PubSubMFE.Map_set_new m key (PubSubMFE.config self) w).2).
    assert (Hl : (PubSubMFE.maps w' !!! m) !! key
                 = Some (DataObservable.this
                           (DataObservable.constructor (PubSubMFE.config self)
                                                       (PubSubMFE.heap w)))).
    { unfold w'. rewrite Map_set_new_lookup, decide_True by auto. reflexivity. }
    assert (Hh' : PubSubMFE.Map_has m key w' = true).
    { apply Map_has_lookup. rewrite Hl. eauto. }
    unfold ret. cbn [fst snd]. split; [reflexivity|]. split; [exact Hh'|].
    split; [|split; [discriminate|]].
    + rewrite ?Hn, bind_run, generateObservable_run. fold m key. rewrite Hh'. reflexivity.
    + intros _. cbv zeta. split; [exact Hl|]. split; [reflexivity|].
      split; [apply Buffer.constructor_contents|]. split; [reflexivity|].
      intros m' key' Hne. unfold w'. rewrite Map_set_new_lookup.
      rewrite decide_False; [reflexivity|]. intros [-> ->]. contradiction.
Qed.

Lemma X14_get_creates_once_witness :
  let w1 := (PubSubMFE.constructor
               {| PubSubMFE.storeMap := PubSubMFE.StoreAbsent;
                  PubSubMFE.ObservableConfig := VUndefined |} PubSubMFE.initial).2 in
  let self := {| PubSubMFE.store := 0;
                 PubSubMFE.config := VObj 7 [("bufferSize", VNum 3)] |} in
  let r := PubSubMFE.get self (Some "c") w1 in
  r.1 = Ok (0, "c")
  /\ PubSubMFE.get self (Some "c") r.2 = r
  /\ (PubSubMFE.get self (Some "default") w1).2 = w1
  /\ PubSubMFE.get self None w1 = (Throw ChannelRequired, w1).
Proof.
  intros w1 self r.
  destruct (X14_get_creates_once self (Some "c") w1) as [_ H].
  destruct (H eq_refl) as (H1 & _ & H3 & _).
  destruct (X14_get_creates_once self (Some "default") w1) as [_ G].
  destruct (G eq_refl) as (_ & _ & _ & G4 & _).
  destruct (X14_get_creates_once self None w1) as [N _].
  split; [exact H1|]. split; [exact H3|]. split; [apply G4; reflexivity|].
  apply N. reflexivity.
Defined.



(** X16. Instances bound to the same store share their channels: a value
    published through one instance is replayed to a callback subscribed
    afterwards through another, when the policy in effect is 'last', the
    stream has a positive capacity and the filter accepts the value. *)
Theorem X16_channels_are_shared (i1 i2 : PubSubMFE.t) (channel : option string)
    (v : value) (cb : Callback) (filter : option (value -> value)) (rp : value)
    (w : PubSubMFE.World) (d : DataObservable.t) :
  let key := PubSubMFE.channel_key channel in
  let r1 := PubSubMFE.setState i1 channel v w in
  let r2 := PubSubMFE.subscribe i2 channel (Some cb) filter rp r1.2 in
  let c := {| callback := cb; sub_filter := filter;
              sub_replayPolicy := rp; paused := false |} in
  let id := length (closures (PubSubMFE.heap r1.2)) in
  PubSubMFE.store i1 = PubSubMFE.store i2 ->
  PubSubMFE.no_channel channel = false ->
  v <> VUndefined ->
  (PubSubMFE.maps r1.2 !!! PubSubMFE.store i1) !! key = Some d ->
  (0 < DataObservable.bufferSize d)%Z ->
  Delivery.effective_policy rp (DataObservable.replayPolicy d) = VStr "last" ->
  DataObservable.passes c v = true ->
  cb_throws cb v = false ->
  r2.1 = Ok id
  /\ delivered (PubSubMFE.heap r2.2) = delivered (PubSubMFE.heap r1.2) ++ [(id, v)].
Proof.
  intros key r1 r2 c id Hst Hn Hv Hd Hk Hp Hf Ht.
  assert (Hs : strict_eq v VUndefined = false).
  { destruct (strict_eq v VUndefined) eqn:E; [|reflexivity].
    apply RegistryFacts.strict_eq_undefined in E. contradiction. }
  (* the publish *)
  assert (Hlast : last (DataObservable.contents
                 {| DataObservable.this := d; DataObservable.heap := PubSubMFE.heap r1.2 |})
               = Some v).
  { revert Hd. unfold r1, PubSubMFE.setState. rewrite Hn, Hs.
    destruct (generate_then_method i1 key (DataObservable.setState v) w)
      as (w0 & d0 & Hrun & Hd0 & _).
    fold key. rewrite Hrun.
    destruct (on_stream_run _ _ (DataObservable.setState v) w0 d0 Hd0)
      as (_ & Hh & Hm & _).
    rewrite Hm. intros [= <-].
    unfold DataObservable.contents. cbn [DataObservable.this DataObservable.heap].
    rewrite Hh.
    destruct (Frame.setState_contents v
                {| DataObservable.this := d0; DataObservable.heap := PubSubMFE.heap w0 |})
      as [Hc Hb].
    unfold DataObservable.contents in Hc. rewrite Hc.
    apply push_evict_last. rewrite <- Hb. exact Hk. }
  (* the subscription *)
  unfold r2, PubSubMFE.subscribe. rewrite Hn.
  destruct (generate_then_method i2 key (DataObservable.subscribe cb filter rp) r1.2)
    as (w0 & d0 & Hrun & Hd0 & Hsame & _).
  fold key. rewrite Hrun.
  assert (Hh : PubSubMFE.Map_has (PubSubMFE.store i2) key r1.2 = true).
  { apply Map_has_lookup. rewrite <- Hst, Hd. eauto. }
  rewrite (Hsame Hh) in *. rewrite <- Hst, Hd in Hd0. injection Hd0 as <-.
  rewrite <- Hst.
  destruct (on_stream_run _ _ (DataObservable.subscribe cb filter rp) r1.2 d Hd)
    as (Ho & Hheap & _).
  rewrite Ho, Hheap.
  destruct (MethodFacts.subscribe_deliver cb filter rp
              {| DataObservable.this := d; DataObservable.heap := PubSubMFE.heap r1.2 |})
    as (G1 & G2 & _).
  cbn [DataObservable.this DataObservable.heap] in G1, G2.
  rewrite Hp in G1, G2. unfold Delivery.replay_source in G1, G2. simpl in G1, G2.
  rewrite MethodFacts.slice_last_last, Hlast in G1, G2. simpl in G1, G2.
  unfold Delivery.eligible, Delivery.throws_on in G1, G2.
  rewrite list_lookup_middle in G1, G2 by reflexivity.
  cbn [paused callback negb andb] in G1, G2. fold c in G1, G2.
  rewrite Hf, Ht in G1, G2. cbn [fst snd] in G1, G2.
  split; [exact G1 | exact G2].
Qed.

Lemma X16_channels_are_shared_witness :
  let cb := {| cb_text := "log"; cb_throws := fun _ => false |} in
  let p := {| PubSubMFE.storeMap := PubSubMFE.StoreAbsent;
              PubSubMFE.ObservableConfig := VUndefined |} in
  let w2 := (PubSubMFE.constructor p (PubSubMFE.constructor p PubSubMFE.initial).2).2 in
  let i1 := {| PubSubMFE.store := 0; PubSubMFE.config := VObj 0 [] |} in
  let i2 := {| PubSubMFE.store := 0; PubSubMFE.config := VObj 1 [] |} in
  let r1 := PubSubMFE.setState i1 (Some "c") (VNum 42) w2 in
  let r2 := PubSubMFE.subscribe i2 (Some "c") (Some cb) None VUndefined r1.2 in
  r2.1 = Ok 0 /\ delivered (PubSubMFE.heap r2.2) = [(0, VNum 42)].
Proof.
  intros cb p w2 i1 i2 r1 r2.
  edestruct (X16_channels_are_shared i1 i2 (Some "c") (VNum 42) cb None VUndefined w2)
    as [H1 H2];
    [ reflexivity | reflexivity | discriminate | vm_compute; reflexivity
    | reflexivity | reflexivity | reflexivity | reflexivity | ].
  split; [exact H1|]. etransitivity; [exact H2 | reflexivity].
Defined.



(** X20. Channels do not interfere: a publish on one channel leaves the
    stream stored under every other key, in this store or another, and the
    contents of its buffer as they were, and calls only callbacks that are
    observers of the channel published on.  The two streams are assumed to
    have distinct, allocated buffer arrays, as streams the registry created
    have. *)
Theorem X20_channels_do_not_interfere (self : PubSubMFE.t) (channel : option string)
    (v : value) (w : PubSubMFE.World) (m' : nat) (key' : string)
    (d' : DataObservable.t) :
  let m := PubSubMFE.store self in
  let key := PubSubMFE.channel_key channel in
  let r := PubSubMFE.setState self channel v w in
  PubSubMFE.no_channel channel = false ->
  v <> VUndefined ->
  (m', key') <> (m, key) ->
  (PubSubMFE.maps w !!! m') !! key' = Some d' ->
  DataObservable.buffer d' < next_loc (PubSubMFE.heap w) ->
  (forall d, (PubSubMFE.maps w !!! m) !! key = Some d ->
             DataObservable.buffer d <> DataObservable.buffer d') ->
  (PubSubMFE.maps r.2 !!! m') !! key' = Some d'
  /\ array_read (DataObservable.buffer d') (PubSubMFE.heap r.2)
     = array_read (DataObservable.buffer d') (PubSubMFE.heap w)
  /\ exists received,
       delivered (PubSubMFE.heap r.2) = delivered (PubSubMFE.heap w) ++ received
       /\ forall o v', (o, v') ∈ received ->
            v' = v
            /\ exists d, (PubSubMFE.maps w !!! m) !! key = Some d
                         /\ o ∈ DataObservable.observers d.
Proof.
  intros m key r Hn Hv Hne Hd' Hlt Hapart.
  assert (Hs : strict_eq v VUndefined = false).
  { destruct (strict_eq v VUndefined) eqn:E; [|reflexivity].
    apply RegistryFacts.strict_eq_undefined in E. contradiction. }
  unfold r, PubSubMFE.setState. rewrite Hn, Hs.
  destruct (generate_then_method self key (DataObservable.setState v) w)
    as (w0 & d0 & Hrun & Hd0 & Hsame & Harr & Hoth & Hnew & Htr & _ & Hobs).
  fold key. rewrite Hrun. fold m. fold m in Hd0, Hsame, Hoth, Hnew, Hobs.
  destruct (on_stream_run _ _ (DataObservable.setState v) w0 d0 Hd0)
    as (_ & Hh & _).
  set (st0 := {| DataObservable.this := d0; DataObservable.heap := PubSubMFE.heap w0 |}) in *.
  assert (Hb : DataObservable.buffer d' <> DataObservable.buffer d0).
  { destruct (PubSubMFE.Map_has m key w) eqn:Hhas.
    - rewrite (Hsame eq_refl) in Hd0. intros E. exact (Hapart d0 Hd0 (eq_sym E)).
    - rewrite (Hnew eq_refl). lia. }
  split; [rewrite on_stream_other, Hoth by exact Hne; exact Hd'|].
  split.
  - rewrite Hh, (StreamFacts.setState_arrays_other v st0) by exact Hb.
    apply Harr, Hlt.
  - destruct (MethodFacts.setState_deliver v st0) as (_ & H2 & _).
    eexists. split; [rewrite Hh, H2; unfold st0; simpl; rewrite Htr; reflexivity|].
    intros o v' Hin. apply DeliveryFacts.walk_only_eligible in Hin as [Hin _].
    apply list_elem_of_fmap in Hin as (o' & Heq & Ho). injection Heq as -> ->.
    split; [reflexivity|]. unfold st0 in Ho. simpl in Ho.
    destruct (PubSubMFE.Map_has m key w) eqn:Hhas.
    + rewrite (Hsame eq_refl) in Hd0. eauto.
    + rewrite (Hobs eq_refl) in Ho. inversion Ho.
Qed.

Lemma X20_channels_do_not_interfere_witness :
  let p := {| PubSubMFE.storeMap := PubSubMFE.StoreAbsent;
              PubSubMFE.ObservableConfig := VUndefined |} in
  let self := {| PubSubMFE.store := 0; PubSubMFE.config := VObj 0 [] |} in
  let w1 := (PubSubMFE.constructor p PubSubMFE.initial).2 in
  let w2 := (PubSubMFE.setState self (Some "a") (VNum 1) w1).2 in
  let r := PubSubMFE.setState self (Some "b") (VNum 2) w2 in
  exists d, (PubSubMFE.maps r.2 !!! 0) !! "a" = Some d
            /\ array_read (DataObservable.buffer d) (PubSubMFE.heap r.2) = [VNum 1].
Proof.
  intros p self w1 w2 r.
  edestruct (X20_channels_do_not_interfere self (Some "b") (VNum 2) w2 0 "a")
    as (H1 & H2 & _);
    [ reflexivity | discriminate | discriminate | vm_compute; reflexivity
    | vm_compute; lia | intros d Hd; vm_compute in Hd; discriminate | ].
  eexists. split; [exact H1|]. etransitivity; [exact H2 | reflexivity].
Defined.

End RegistryProperties.

(** ** More facts on the comparison of configurations *)

Module ConfigMore.
Import PubSubMFE ConfigFacts.

Lemma in_assoc k v (props : list (string * value)) :
  NoDup props.*1 -> (k, v) ∈ props -> assoc k props = Some v.
Proof.
  induction props as [|[k' v'] props IH]; simpl; intros Hn Hin; [inversion Hin|].
  apply NoDup_cons in Hn as [Hk Hn].
  apply elem_of_cons in Hin as [Heq|Hin].
  - injection Heq as -> ->. rewrite String.eqb_refl. reflexivity.
  - destruct (String.eqb_spec k k') as [->|_]; [|exact (IH Hn Hin)].
    exfalso. apply Hk. apply list_elem_of_fmap. exists (k', v). split; [reflexivity | exact Hin].
Qed.

(** The value of a field does not depend on the order of the fields. *)
Lemma assoc_Permutation k (p1 p2 : list (string * value)) :
  NoDup p1.*1 -> p1 ≡ₚ p2 -> assoc k p1 = assoc k p2.
Proof.
  intros Hn Hp.
  assert (Hn2 : NoDup p2.*1) by (rewrite <- Hp; exact Hn).
  destruct (assoc k p1) as [v|] eqn:H1.
  - symmetry. apply in_assoc; [exact Hn2|]. rewrite <- Hp. apply assoc_Some_in, H1.
  - destruct (assoc k p2) as [v|] eqn:H2; [|reflexivity].
    apply assoc_Some_in in H2. rewrite <- Hp in H2.
    rewrite (in_assoc _ _ _ Hn H2) in H1. discriminate.
Qed.

End ConfigMore.

(** ** The comparison of configurations *)

Section ConfigProperties.
  Import ConfigFacts ConfigMore.

(** X18. _isEqual does not depend on the order in which the fields of a
    configuration were written: two distinct configuration objects with the
    same fields in any order compare equal, and a later instance that
    brings the recorded configuration with its fields reordered is
    accepted. *)
Theorem X18_field_order_is_ignored (r1 r2 : nat) (p1 p2 : list (string * value))
    (w : PubSubMFE.World) (fp : PubSubMFE.params) (m : nat) :
  let r := PubSubMFE.constructor
             {| PubSubMFE.storeMap := PubSubMFE.StoreAbsent;
                PubSubMFE.ObservableConfig := VObj r2 p2 |} w in
  PubSubMFE.stream_config (VObj r1 p1) = true ->
  p1 ≡ₚ p2 ->
  r1 <> r2 ->
  PubSubMFE._isEqual (VObj r1 p1) (VObj r2 p2) = true
  /\ (PubSubMFE.firstInstanceParams w = Some fp ->
      PubSubMFE.ObservableConfig fp = VObj r1 p1 ->
      PubSubMFE.static_store_default w = Some m ->
      PubSubMFE.Map_has m "default" w = true ->
      r.1 = Ok {| PubSubMFE.store := m; PubSubMFE.config := VObj r2 p2 |}).
Proof.
  intros r Hc1 Hp Hne.
  assert (Hc2 : PubSubMFE.stream_config (VObj r2 p2) = true).
  { simpl in *. apply andb_true_iff in Hc1 as [Hv Hn]. apply andb_true_iff. split.
    - apply forallb_forall. intros x Hx. rewrite forallb_forall in Hv. apply Hv.
      apply list_elem_of_In. rewrite Hp. apply list_elem_of_In, Hx.
    - apply bool_decide_eq_true. apply bool_decide_eq_true in Hn. rewrite <- Hp. exact Hn. }
  assert (Heq : PubSubMFE._isEqual (VObj r1 p1) (VObj r2 p2) = true).
  { apply isEqual_deep_equal; try assumption.
    - intros r' q1 q2 [= -> _] [= ? _]. congruence.
    - split; [reflexivity|]. intros k. simpl.
      apply assoc_Permutation; [|exact Hp]. exact (config_NoDup _ _ Hc1). }
  split; [exact Heq|].
  intros Hf Hfc Hs Hh. unfold r.
  rewrite (constructor_shared w fp m (VObj r2 p2) Hf Hs Hh Hc2), Hfc, Heq.
  destruct (Nat.eqb (length (Object_keys (VObj r2 p2))) 0); reflexivity.
Qed.

Lemma X18_field_order_is_ignored_witness :
  PubSubMFE._isEqual
    (VObj 0 [("bufferSize", VNum 5); ("replayPolicy", VStr "all")])
    (VObj 1 [("replayPolicy", VStr "all"); ("bufferSize", VNum 5)]) = true.
Proof.
  refine (proj1 (X18_field_order_is_ignored 0 1
            [("bufferSize", VNum 5); ("replayPolicy", VStr "all")]
            [("replayPolicy", VStr "all"); ("bufferSize", VNum 5)]
            PubSubMFE.initial
            {| PubSubMFE.storeMap := PubSubMFE.StoreAbsent;
               PubSubMFE.ObservableConfig := VUndefined |} 0
            eq_refl _ _)).
  - apply perm_swap.
  - discriminate.
Defined.

(** X19. _isEqual is looser than deep equality: a non-zero number, or true,
    compares equal to any object without own properties, in either order,
    because both have no keys and no prototype property. *)
Theorem X19_isEqual_number_and_empty_object (n : Z) (r : nat) :
  n <> 0%Z ->
  PubSubMFE._isEqual (VNum n) (VObj r []) = true
  /\ PubSubMFE._isEqual (VObj r []) (VNum n) = true
  /\ PubSubMFE._isEqual (VBool true) (VObj r []) = true
  /\ PubSubMFE._isEqual (VObj r []) (VBool true) = true.
Proof.
  intros Hn. unfold PubSubMFE._isEqual. simpl.
  apply Z.eqb_neq in Hn. rewrite Hn. repeat split.
Qed.

Lemma X19_isEqual_number_and_empty_object_witness :
  PubSubMFE._isEqual (VNum 1) (VObj 0 []) = true.
Proof. exact (proj1 (X19_isEqual_number_and_empty_object 1 0 ltac:(discriminate))). Defined.

End ConfigProperties.

(** ** An invariant of the registry *)

Module WorldFacts.
Import PubSubMFE Client RegistryMore.

Section Preserves.
Context {S : Type} (I : S -> Prop).

Lemma preserves_ret {A} (a : A) : preserves I (ret a).
Proof. intros s H. exact H. Qed.

Lemma preserves_throw {A} e : preserves I (@throw S A e).
Proof. intros s H. exact H. Qed.

Lemma preserves_gets {A} (f : S -> A) : preserves I (gets f).
Proof. intros s H. exact H. Qed.

Lemma preserves_modify (f : S -> S) :
  (forall s, I s -> I (f s)) -> preserves I (modify f).
Proof. intros H s Hs. apply H, Hs. Qed.

Lemma preserves_bind {A B} (m : M S A) (k : A -> M S B) :
  preserves I m -> (forall a, preserves I (k a)) -> preserves I (bind m k).
Proof.
  intros Hm Hk s Hs. unfold bind. specialize (Hm s Hs).
  destruct (m s) as [[a|e] s']; simpl in *; [apply Hk, Hm | exact Hm].
Qed.
End Preserves.

Lemma new_object_apart : preserves buffers_apart new_object.
Proof. intros w H. exact H. Qed.

Lemma set_static_apart d w : buffers_apart w -> buffers_apart (set_static_store_default d w).
Proof. intros H. exact H. Qed.

Lemma set_first_apart p w : buffers_apart w -> buffers_apart (set_firstInstanceParams p w).
Proof. intros H. exact H. Qed.

Lemma new_Map_lookup w m k :
  (maps (new_Map w).2 !!! m) !! k =
  if decide (m = next_map w) then None else (maps w !!! m) !! k.
Proof.
  unfold new_Map. simpl. destruct (decide (m = next_map w)) as [->|Hne].
  - rewrite lookup_total_insert_eq. apply lookup_empty.
  - rewrite lookup_total_insert_ne by congruence. reflexivity.
Qed.

Lemma new_Map_apart : preserves buffers_apart new_Map.
Proof.
  intros w [H1 H2]. split.
  - intros m k d. rewrite new_Map_lookup. destruct (decide _); [discriminate|].
    apply H1.
  - intros m k d m' k' d'. rewrite !new_Map_lookup.
    destruct (decide (m = _)); [discriminate|].
    destruct (decide (m' = _)); [discriminate|]. apply H2.
Qed.

Lemma Map_set_new_apart m key config : preserves buffers_apart (Map_set_new m key config).
Proof.
  intros w [H1 H2].
  assert (Hb : DataObservable.buffer
                 (DataObservable.this (DataObservable.constructor config (heap w)))
               = next_loc (heap w)) by reflexivity.
  assert (Hn : next_loc (heap (Map_set_new m key config w).2) = S (next_loc (heap w)))
    by reflexivity.
  split.
  - intros m1 k1 d1. rewrite Map_set_new_lookup, Hn.
    destruct (decide _); [intros [= <-]; simpl; lia|].
    intros Hd. specialize (H1 _ _ _ Hd). lia.
  - intros m1 k1 d1 m2 k2 d2. rewrite !Map_set_new_lookup.
    destruct (decide (m1 = m /\ k1 = key)) as [[-> ->]|N1];
      destruct (decide (m2 = m /\ k2 = key)) as [[-> ->]|N2].
    + reflexivity.
    + intros [= <-] Hd E. simpl in E. specialize (H1 _ _ _ Hd). lia.
    + intros Hd [= <-] E. simpl in E. specialize (H1 _ _ _ Hd). lia.
    + apply H2.
Qed.

Lemma stable_allocates {A} (method : M DataObservable.St A) :
  stable Observation.alloc_view method -> allocates method.
Proof.
  intros H st. specialize (H st). unfold Observation.alloc_view in H.
  injection H as Hb Hn. simpl. rewrite Hb, Hn. repeat split; auto.
Qed.

Lemma clearBuffer_allocates : allocates DataObservable.clearBuffer.
Proof. intros st. simpl. repeat split; lia. Qed.

Lemma on_stream_apart {A} m key (method : M DataObservable.St A) :
  allocates method -> preserves buffers_apart (on_stream m key method).
Proof.
  intros Ha w [H1 H2].
  destruct ((maps w !!! m) !! key) as [d0|] eqn:Hd0.
  2:{ unfold on_stream. rewrite Hd0. split; assumption. }
  destruct (on_stream_run m key method w d0 Hd0) as (_ & Hh & Hm & _).
  set (w' := (on_stream m key method w).2) in *.
  set (st := {| DataObservable.this := d0; DataObservable.heap := heap w |}) in *.
  destruct (Ha st) as (A1 & A2 & A3). simpl in A1, A2, A3.
  specialize (A2 (H1 _ _ _ Hd0)).
  assert (Hl : forall m1 k1,
            (maps w' !!! m1) !! k1 =
            if decide ((m1, k1) = (m, key))
            then Some (DataObservable.this (method st).2)
            else (maps w !!! m1) !! k1).
  { intros m1 k1. destruct (decide _) as [[= -> ->]|Hne]; [exact Hm|].
    apply on_stream_other, Hne. }
  split.
  - intros m1 k1 d1. rewrite Hl, Hh.
    destruct (decide _); [intros [= <-]; exact A2|].
    intros Hd. specialize (H1 _ _ _ Hd). lia.
  - intros m1 k1 d1 m2 k2 d2. rewrite !Hl.
    destruct (decide ((m1, k1) = _)) as [E1|N1];
      destruct (decide ((m2, k2) = _)) as [E2|N2].
    + congruence.
    + intros [= <-] Hd E. exfalso. destruct A3 as [A3|A3].
      * rewrite A3 in E. apply N2. symmetry. exact (H2 _ _ _ _ _ _ Hd0 Hd E).
      * specialize (H1 _ _ _ Hd). lia.
    + intros Hd [= <-] E. exfalso. destruct A3 as [A3|A3].
      * rewrite A3 in E. apply N1. exact (H2 _ _ _ _ _ _ Hd Hd0 E).
      * specialize (H1 _ _ _ Hd). lia.
    + apply H2.
Qed.

Lemma generateObservable_apart self key :
  preserves buffers_apart (_generateObservable self key).
Proof.
  unfold _generateObservable. apply preserves_bind; [apply preserves_gets|].
  intros has. destruct (negb has); [apply Map_set_new_apart | apply preserves_ret].
Qed.

Lemma channel_method_apart {A} self channel (method : M DataObservable.St A) :
  allocates method ->
  preserves buffers_apart
    (_generateObservable self (channel_key channel) ;;
     on_stream (store self) (channel_key channel) method).
Proof.
  intros Ha. apply preserves_bind; [apply generateObservable_apart|].
  intros _. apply on_stream_apart, Ha.
Qed.

Lemma constructor_apart p : preserves buffers_apart (constructor p).
Proof.
  unfold constructor.
  repeat first
    [ apply preserves_ret | apply preserves_throw | apply preserves_gets
    | apply new_object_apart | apply new_Map_apart | apply Map_set_new_apart
    | apply preserves_modify; intros ? ?; assumption
    | apply preserves_bind; [| intros ?]
    | match goal with
      | |- preserves _ (match ?a with _ => _ end) => destruct a
      end ].
Qed.

Lemma exec_apart w c : buffers_apart w -> buffers_apart (exec w c).
Proof.
  intros H. destruct c as [|p|self ch|self ch v|self ch cb f rp|self ch|self ch|self ch|m key o];
    cbn [exec].
  - apply new_Map_apart, H.
  - apply constructor_apart, H.
  - unfold get. destruct (no_channel ch); [exact H|].
    revert H. apply preserves_bind; [apply generateObservable_apart|].
    intros _. apply preserves_ret.
  - unfold setState. destruct (no_channel ch); [exact H|].
    destruct (strict_eq v VUndefined); [exact H|].
    revert H. apply channel_method_apart, stable_allocates, StreamFacts.setState_alloc.
  - unfold subscribe. destruct (no_channel ch); [exact H|].
    destruct cb as [cb|]; [|exact H].
    revert H. apply channel_method_apart, stable_allocates, StreamFacts.subscribe_alloc.
  - unfold unsubscribeAll. destruct (no_channel ch); [exact H|].
    revert H. apply channel_method_apart, stable_allocates,
      StreamFacts.unsubscribeAll_alloc.
  - unfold clearBuffer. destruct (no_channel ch); [exact H|].
    revert H. apply channel_method_apart, clearBuffer_allocates.
  - unfold getReplayPolicy. destruct (no_channel ch); [exact H|].
    revert H. apply channel_method_apart, stable_allocates.
    intros st. reflexivity.
  - destruct o; revert H; apply on_stream_apart;
      first [ apply clearBuffer_allocates | apply stable_allocates ].
    + apply StreamFacts.setState_alloc.
    + apply StreamFacts.subscribe_alloc.
    + apply StreamFacts.unsubscribe_alloc.
    + apply StreamFacts.pause_alloc.
    + apply StreamFacts.resume_alloc.
    + apply StreamFacts.unsubscribeAll_alloc.
Qed.

End WorldFacts.

(** ** Streams, channels and the shared heap *)

Section WorldProperties.
  Import DataObservable Delivery DeliveryFacts MethodFacts Frame Buffer.
  Import Observation StreamFacts.

(** X21. In every world reached from the start of the process by calls on
    the registry, on its instances, on the streams get returns and on the
    handles subscribe returns, every stored stream has an allocated buffer
    array of its own: no two channels, in one store or in two, share their
    buffer. *)
Theorem X21_streams_have_their_own_buffers (cs : list Client.call) :
  Client.buffers_apart (Client.run_calls cs PubSubMFE.initial).
Proof.
  unfold Client.run_calls.
  assert (H0 : Client.buffers_apart PubSubMFE.initial).
  { assert (He : forall m k, (PubSubMFE.maps PubSubMFE.initial !!! m) !! k
                             = (None : option DataObservable.t)).
    { intros m k. unfold PubSubMFE.initial. cbn [PubSubMFE.maps].
      unfold lookup_total, map_lookup_total. rewrite lookup_empty. apply lookup_empty. }
    split.
    - intros m k d H. rewrite He in H. discriminate.
    - intros m k d m' k' d' H. rewrite He in H. discriminate. }
  revert H0. generalize PubSubMFE.initial.
  induction cs as [|c cs IH]; intros w H; [exact H|].
  simpl. apply IH, WorldFacts.exec_apart, H.
Qed.

(** X22. After unsubscribeAll the stream has no observer: the count is 0,
    the buffer and the configuration are as before, and a publish returns
    without calling any callback, however the former subscribers behave,
    while still recording the value. *)
Theorem X22_unsubscribeAll_silences (s : St) (v : value) :
  let s1 := (unsubscribeAll s).2 in
  let r := setState v s1 in
  (unsubscribeAll s).1 = Ok tt
  /\ (getObserverCount s1).1 = Ok 0
  /\ contents s1 = contents s
  /\ closures (heap s1) = closures (heap s)
  /\ r.1 = Ok tt
  /\ delivered (heap r.2) = delivered (heap s)
  /\ contents r.2 = push_evict (bufferSize (this s)) (contents s) v.
Proof.
  intros s1 r.
  destruct (setState_deliver v s1) as (H1 & H2 & _). fold r in H1, H2.
  destruct (setState_contents v s1) as [Hc _]. fold r in Hc.
  simpl in H1, H2. rewrite app_nil_r in H2.
  repeat split; assumption.
Qed.

(** X23. getReplayPolicy on the registry is a read on a channel that
    exists: it answers with the policy of the stored stream and changes
    nothing.  On a channel never addressed it creates the channel and
    answers with the policy of the instance's configuration, 'last' when
    the configuration has none. *)
Theorem X23_getReplayPolicy_reads_or_creates (self : PubSubMFE.t)
    (channel : option string) (w : PubSubMFE.World) :
  let m := PubSubMFE.store self in
  let key := PubSubMFE.channel_key channel in
  let r := PubSubMFE.getReplayPolicy self channel w in
  PubSubMFE.no_channel channel = false ->
  PubSubMFE.Map_has m key r.2 = true
  /\ (forall d, (PubSubMFE.maps w !!! m) !! key = Some d ->
        r = (Ok (replayPolicy d), w))
  /\ (PubSubMFE.Map_has m key w = false ->
      r.1 = Ok (config_replayPolicy (PubSubMFE.config self))
      /\ (get_prop (PubSubMFE.config self) "replayPolicy" = VUndefined ->
          r.1 = Ok (VStr "last"))).
Proof.
  intros m key r Hn. unfold r, PubSubMFE.getReplayPolicy. rewrite Hn.
  rewrite bind_run, RegistryMore.generateObservable_run. fold m key. cbn [fst snd].
  split; [|split].
  - destruct (PubSubMFE.Map_has m key w) eqn:Hh.
    + destruct (RegistryFacts.on_stream_has m key getReplayPolicy w Hh) as (_ & _ & _ & H).
      exact H.
    + match goal with
      | |- context [PubSubMFE.on_stream m key getReplayPolicy ?w'] =>
          assert (Hh' : PubSubMFE.Map_has m key w' = true);
          [ apply RegistryMore.Map_has_lookup;
            rewrite RegistryMore.Map_set_new_lookup, decide_True by auto; eauto
          | destruct (RegistryFacts.on_stream_has m key getReplayPolicy w' Hh')
              as (_ & _ & _ & H); exact H ]
      end.
  - intros d Hd.
    assert (Hh : PubSubMFE.Map_has m key w = true).
    { apply RegistryMore.Map_has_lookup. rewrite Hd. eauto. }
    rewrite Hh. unfold PubSubMFE.on_stream. rewrite Hd.
    unfold getReplayPolicy, gets. cbn [fst snd this heap]. f_equal.
    destruct w as [h ms nm nr sd fp]. unfold PubSubMFE.set_maps, PubSubMFE.set_heap.
    cbn in *. f_equal.
    destruct (ms !! m) as [mm|] eqn:Hm.
    + rewrite (lookup_total_correct _ _ _ Hm) in *.
      rewrite (insert_id mm) by exact Hd. apply insert_id, Hm.
    + unfold lookup_total, map_lookup_total in Hd. rewrite Hm in Hd. simpl in Hd.
      rewrite lookup_empty in Hd. discriminate.
  - intros Hh. rewrite Hh.
    assert (Hr : (PubSubMFE.on_stream m key getReplayPolicy
                    (PubSubMFE.Map_set_new m key (PubSubMFE.config self) w).2).1
                 = Ok (config_replayPolicy (PubSubMFE.config self))).
    { unfold PubSubMFE.on_stream.
      rewrite RegistryMore.Map_set_new_lookup, decide_True by auto. reflexivity. }
    split; [exact Hr|]. intros Hu. rewrite Hr. unfold config_replayPolicy.
    rewrite Hu. reflexivity.
Qed.

Lemma X23_getReplayPolicy_reads_or_creates_witness :
  let p := {| PubSubMFE.storeMap := PubSubMFE.StoreAbsent;
              PubSubMFE.ObservableConfig := VObj 5 [("replayPolicy", VStr "all")] |} in
  let w1 := (PubSubMFE.constructor p PubSubMFE.initial).2 in
  let self := {| PubSubMFE.store := 0; PubSubMFE.config := VObj 0 [] |} in
  PubSubMFE.getReplayPolicy self (Some "default") w1 = (Ok (VStr "all"), w1)
  /\ (PubSubMFE.getReplayPolicy self (Some "c") w1).1 = Ok (VStr "last").
Proof.
  intros p w1 self.
  pose proof (X23_getReplayPolicy_reads_or_creates self (Some "default") w1 eq_refl)
    as (_ & H & _).
  pose proof (X23_getReplayPolicy_reads_or_creates self (Some "c") w1 eq_refl)
    as (_ & _ & G).
  split.
  - etransitivity; [eapply H; vm_compute; reflexivity | reflexivity].
  - apply G; reflexivity.
Defined.

End WorldProperties.
